(** * Signaling server: the ConnectionManager and its websocket endpoint

    A shallow embedding of [signaling_server/server.py].  The server keeps
    two Python dicts (the connection registry [active_connections] and the
    presence map [online_users]) and stores two attributes, [name] and
    [otherName], directly on each WebSocket object.  Several registry
    entries can refer to the same WebSocket object, so the sockets live in
    a store indexed by an identifier and the registry holds identifiers.

    Each handler is modelled as running to completion before the next one
    starts (one message at a time). *)

From Stdlib Require Import ZArith.
From stdpp Require Import base tactics option list strings.

Local Set Warnings "-register-all".

(** ** Values *)

(** Decoded JSON, as [receive_json] hands it over.  Payloads ([offer],
    [answer], [candidate]) are relayed without being inspected. *)
Inductive JSON :=
  | JNull
  | JBool (b : bool)
  | JNum (z : Z)
  | JStr (s : string)
  | JArr (items : list JSON)
  | JObj (fields : list (string * JSON)).

(** The dict literals passed to [send_message], one constructor per
    ["type"] value, with the remaining keys as arguments. *)
Inductive message :=
  | server_login (success : bool)
  | server_userlist (name : list (string * string))
  | server_nouser (success : bool)
  | server_offer (offer : JSON) (name : string)
  | server_alreadyinroom (success : bool) (name : string)
  | server_answer (answer : JSON)
  | server_candidate (candidate : JSON)
  | server_userwanttoleave
  | server_busyuser
  | server_userready (success : bool) (peername : string)
  | server_pong (name : string)
  | server_error (text : string).

(** ** Python dicts

    A dict is kept as the list of its items in insertion order:
    [update_users_list] sends [online_users.items()] and [broadcast] walks
    [active_connections.values()], both in that order. *)
Module Dict.
Section Dict.
Context {V : Type}.

(** [d.get(k)] *)
Fixpoint get (k : string) (d : list (string * V)) : option V :=
  match d with
  | [] => None
  | (k', v) :: d' => if String.eqb k k' then Some v else get k d'
  end.

(** [k in d] *)
Definition mem (k : string) (d : list (string * V)) : bool :=
  match get k d with Some _ => true | None => false end.

(** [d[k] = v]: an existing key keeps its place, a new key goes last. *)
Fixpoint set (k : string) (v : V) (d : list (string * V)) : list (string * V) :=
  match d with
  | [] => [(k, v)]
  | (k', v') :: d' =>
      if String.eqb k k' then (k', v) :: d' else (k', v') :: set k v d'
  end.

(** [d.pop(k, None)], the popped value dropped.  Keys of a dict are
    unique, so at most one item goes. *)
Fixpoint pop (k : string) (d : list (string * V)) : list (string * V) :=
  match d with
  | [] => []
  | (k', v') :: d' =>
      if String.eqb k k' then pop k d' else (k', v') :: pop k d'
  end.

(** [d.pop(o, None)] where [o] is not a string but some other object and
    [eqo k] says whether the key [k] compares equal to it. *)
Fixpoint pop_where (eqo : string → bool) (d : list (string * V))
  : list (string * V) :=
  match d with
  | [] => []
  | (k', v') :: d' =>
      if eqo k' then pop_where eqo d' else (k', v') :: pop_where eqo d'
  end.

(** [d.values()] and [d.items()] *)
Definition values (d : list (string * V)) : list V := d.*2.
Definition items (d : list (string * V)) : list (string * V) := d.
End Dict.
End Dict.

(** ** The store *)

Inductive WebSocketState := CONNECTING | CONNECTED | DISCONNECTED.

(** A WebSocket object, as far as the manager touches it.  [name] and
    [otherName] are attached by [register_user_connection]; until then the
    object has no such attribute and reading it raises [AttributeError].
    [name = None] and [otherName = None] stand for a missing attribute,
    [otherName = Some None] for the attribute holding Python's [None]. *)
Record WebSocket := mkWebSocket {
  name : option string;
  otherName : option (option string);
  client_state : WebSocketState }.

Record ConnectionManager := mkConnectionManager {
  active_connections : list (string * nat);
  online_users : list (string * string) }.

(** The manager, every WebSocket object created so far (a connection is
    referred to by its position here), and what [send_json] has put on the
    wire, oldest first, each message with the connection it went to. *)
Record World := mkWorld {
  manager : ConnectionManager;
  sockets : list WebSocket;
  wire : list (nat * message) }.

Definition with_active_connections
    (f : list (string * nat) → list (string * nat)) (w : World) : World :=
  mkWorld (mkConnectionManager (f (active_connections (manager w)))
                               (online_users (manager w)))
          (sockets w) (wire w).

Definition with_online_users
    (f : list (string * string) → list (string * string)) (w : World) : World :=
  mkWorld (mkConnectionManager (active_connections (manager w))
                               (f (online_users (manager w))))
          (sockets w) (wire w).

Definition with_sockets (f : list WebSocket → list WebSocket) (w : World) : World :=
  mkWorld (manager w) (f (sockets w)) (wire w).

Definition with_wire
    (f : list (nat * message) → list (nat * message)) (w : World) : World :=
  mkWorld (manager w) (sockets w) (f (wire w)).

Definition set_name (v : string) (ws : WebSocket) : WebSocket :=
  mkWebSocket (Some v) (otherName ws) (client_state ws).

Definition set_otherName (v : option string) (ws : WebSocket) : WebSocket :=
  mkWebSocket (name ws) (Some v) (client_state ws).

Definition set_client_state (v : WebSocketState) (ws : WebSocket) : WebSocket :=
  mkWebSocket (name ws) (otherName ws) v.

Definition is_CONNECTED (s : WebSocketState) : bool :=
  match s with CONNECTED => true | _ => false end.

(** ** Reading the state *)

(** The registry's entry for [username] *)
Definition lookup_connection (w : World) (username : string) : option nat :=
  Dict.get username (active_connections (manager w)).

(** The presence status of [username] *)
Definition status (w : World) (username : string) : option string :=
  Dict.get username (online_users (manager w)).

(** [connection.client_state == WebSocketState.CONNECTED] *)
Definition connected (w : World) (connection : nat) : bool :=
  match sockets w !! connection with
  | Some ws => is_CONNECTED (client_state ws)
  | None => false
  end.

(** The [otherName] attribute of a connection *)
Definition peerName (w : World) (connection : nat) : option (option string) :=
  sockets w !! connection ≫= otherName.

(** The [name] attribute of a connection *)
Definition userName (w : World) (connection : nat) : option string :=
  sockets w !! connection ≫= name.

(** [connection] is the live session of [username]: it carries that name,
    the registry has it under that name, and its transport is open. *)
Definition session (w : World) (username : string) (connection : nat) : Prop :=
  lookup_connection w username = Some connection ∧
  userName w connection = Some username ∧
  connected w connection = true.

(** The messages one snapshot broadcast puts on the wire in state [w]. *)
Definition snapshot (w : World) : list (nat * message) :=
  (λ c, (c, server_userlist (Dict.items (online_users (manager w)))))
    <$> filter (λ c, connected w c = true)
               (Dict.values (active_connections (manager w))).

(** ** Python computations: state that survives an exception *)

Inductive exn := AttributeError | KeyError | TypeError.

Inductive outcome (A : Type) :=
  | Returned (a : A)
  | Raised (e : exn).
Arguments Returned {A} a.
Arguments Raised {A} e.

(** What was mutated before an exception stays mutated. *)
Definition Py (A : Type) : Type := World → outcome A * World.

Definition ret {A} (a : A) : Py A := λ w, (Returned a, w).
Definition raise {A} (e : exn) : Py A := λ w, (Raised e, w).
Definition bind {A B} (m : Py A) (k : A → Py B) : Py B :=
  λ w, match m w with
       | (Returned a, w') => k a w'
       | (Raised e, w') => (Raised e, w')
       end.
Definition gets {A} (f : World → A) : Py A := λ w, (Returned (f w), w).
Definition modify (f : World → World) : Py unit := λ w, (Returned tt, f w).

Notation "'let!' x ':=' m 'in' k" := (bind m (λ x, k))
  (at level 10, x name, m at level 100, k at level 200, only parsing).
Notation "'do!' m 'in' k" := (bind m (λ _, k))
  (at level 10, m at level 100, k at level 200, only parsing).

(** [c.name], [c.otherName] *)
Definition getattr_name (c : nat) : Py string :=
  λ w, match userName w c with
       | Some v => (Returned v, w)
       | None => (Raised AttributeError, w)
       end.

Definition getattr_otherName (c : nat) : Py (option string) :=
  λ w, match peerName w c with
       | Some v => (Returned v, w)
       | None => (Raised AttributeError, w)
       end.

(** [c.name = v], [c.otherName = v] *)
Definition setattr_name (c : nat) (v : string) : Py unit :=
  modify (with_sockets (alter (set_name v) c)).

Definition setattr_otherName (c : nat) (v : option string) : Py unit :=
  modify (with_sockets (alter (set_otherName v) c)).

(** ** ConnectionManager *)

Definition init : ConnectionManager := mkConnectionManager [] [].

(** [connect]: [await connection.accept()] *)
Definition connect (connection : nat) : Py unit :=
  modify (with_sockets (alter (set_client_state CONNECTED) connection)).

Definition register_user_connection (username : string) (connection : nat)
  : Py unit :=
  do! modify (with_active_connections (Dict.set username connection)) in
  do! setattr_name connection username in
  setattr_otherName connection None.

Definition update_user_status (username status : string) : Py unit :=
  modify (with_online_users (Dict.set username status)).

Definition get_user_status (username : string) : Py (option string) :=
  gets (λ w, Dict.get username (online_users (manager w))).

(** A registry key is a [str]; the argument of this [pop] is a WebSocket
    object.  [str.__eq__] does not recognise it and a WebSocket compares by
    identity, so no key is equal to it. *)
Definition str_eq_WebSocket (connection : nat) (key : string) : bool := false.

Definition disconnect (connection : nat) : Py unit :=
  modify (with_active_connections (Dict.pop_where (str_eq_WebSocket connection))).

(** [connection.send_json(message)]: the message goes on the wire.  A
    send that fails inside the transport is not part of this model. *)
Definition send_json (connection : nat) (msg : message) (w : World) : World :=
  with_wire (λ sent, sent ++ [(connection, msg)]) w.

(** [send_json] is reached only when the socket is [CONNECTED]; otherwise
    the message is dropped without a word. *)
Definition send_message (connection : nat) (msg : message) : Py unit :=
  let! open := gets (λ w, connected w connection) in
  if open
  then modify (send_json connection msg)
  else ret tt.

Fixpoint send_each (connections : list nat) (msg : message) : Py unit :=
  match connections with
  | [] => ret tt
  | connection :: rest =>
      do! send_message connection msg in send_each rest msg
  end.

Definition broadcast (msg : message) : Py unit :=
  let! connections := gets (λ w, Dict.values (active_connections (manager w))) in
  send_each connections msg.

Definition update_users_list : Py unit :=
  let! users := gets (λ w, Dict.items (online_users (manager w))) in
  broadcast (server_userlist users).

Definition login_user (username : string) (connection : nat) : Py unit :=
  let! taken := gets (λ w, Dict.mem username (active_connections (manager w))) in
  if taken
  then send_message connection (server_login false)
  else
    do! register_user_connection username connection in
    do! update_user_status username "online" in
    do! send_message connection (server_login true) in
    update_users_list.

Definition send_offer (username : string) (offer : JSON) (connection : nat)
  : Py unit :=
  let! conn := gets (λ w, Dict.get username (active_connections (manager w))) in
  match conn with
  | None => send_message connection (server_nouser false)
  | Some conn =>
      let! other := getattr_otherName conn in
      match other with
      | None =>
          let! sender := getattr_name connection in
          send_message conn (server_offer offer sender)
      | Some _ =>
          send_message connection (server_alreadyinroom true username)
      end
  end.

Definition send_answer (username : string) (answer : JSON) : Py unit :=
  let! conn := gets (λ w, Dict.get username (active_connections (manager w))) in
  match conn with
  | None => ret tt
  | Some conn => send_message conn (server_answer answer)
  end.

Definition send_candidate_request (username : string) (candidate : JSON)
  : Py unit :=
  let! conn := gets (λ w, Dict.get username (active_connections (manager w))) in
  match conn with
  | None => ret tt
  | Some conn =>
      let! other := getattr_otherName conn in
      match other with
      | None => ret tt
      | Some _ => send_message conn (server_candidate candidate)
      end
  end.

Definition leave (username : string) (connection : nat) : Py unit :=
  let! conn := gets (λ w, Dict.get username (active_connections (manager w))) in
  match conn with
  | None => ret tt
  | Some conn =>
      do! send_message conn server_userwanttoleave in
      do! send_message connection server_userwanttoleave in
      do! update_user_status username "online" in
      let! me := getattr_name connection in
      do! update_user_status me "online" in
      do! setattr_otherName conn None in
      do! setattr_otherName connection None in
      update_users_list
  end.

Definition busy (username : string) : Py unit :=
  let! conn := gets (λ w, Dict.get username (active_connections (manager w))) in
  match conn with
  | None => ret tt
  | Some conn => send_message conn server_busyuser
  end.

Definition want_to_call (username : string) (connection : nat) : Py unit :=
  let! conn := gets (λ w, Dict.get username (active_connections (manager w))) in
  match conn with
  | None => send_message connection (server_nouser false)
  | Some conn =>
      let! other := getattr_otherName conn in
      let! in_room :=
        match other with
        | None => ret false
        | Some _ =>
            let! status := get_user_status username in
            ret (bool_decide (status = Some "busy"))
        end in
      if in_room
      then send_message connection (server_alreadyinroom true username)
      else send_message connection (server_alreadyinroom false username)
  end.

Definition handle_ready (username : string) (connection : nat) : Py unit :=
  let! conn := gets (λ w, Dict.get username (active_connections (manager w))) in
  match conn with
  | None => ret tt
  | Some conn =>
      do! setattr_otherName connection (Some username) in
      let! me := getattr_name connection in
      do! setattr_otherName conn (Some me) in
      do! update_user_status username "busy" in
      let! me := getattr_name connection in
      do! update_user_status me "busy" in
      let! me := getattr_name connection in
      do! send_message conn (server_userready true me) in
      let! peer := getattr_name conn in
      do! send_message connection (server_userready true peer) in
      update_users_list
  end.

Definition handle_quit (username : string) (connection : nat) : Py unit :=
  let! me := getattr_name connection in
  let! registered := gets (λ w, Dict.mem me (active_connections (manager w))) in
  do! (if registered
       then let! me := getattr_name connection in
            modify (with_active_connections (Dict.pop me))
       else ret tt) in
  let! present := gets (λ w, Dict.mem username (online_users (manager w))) in
  do! (if present
       then modify (with_online_users (Dict.pop username))
       else ret tt) in
  update_users_list.

(** ** The endpoint *)

(** A decoded message envelope: the keys the endpoint reads, [None] for a
    key that is not there.  The manager's methods take [username: str]; an
    envelope carries its ["name"], when it has one, as a string. *)
Record envelope := mkEnvelope {
  e_type : option JSON;
  e_name : option string;
  e_offer : option JSON;
  e_answer : option JSON;
  e_candidate : option JSON }.

(** [data[key]] *)
Definition subscript {A} (field : option A) : Py A :=
  match field with
  | Some v => ret v
  | None => raise KeyError
  end.

(** The body of the [while True] loop after [receive_json]: the [match]
    on [data.get('type')].  A literal pattern compares with [==], so only
    a string can select a case; everything else reaches the default case,
    whose string concatenation accepts a string only. *)
Definition dispatch (data : envelope) (connection : nat) : Py unit :=
  match e_type data with
  | Some (JStr a_type) =>
      if String.eqb a_type "login" then
        let! username := subscript (e_name data) in
        login_user username connection
      else if String.eqb a_type "offer" then
        let! username := subscript (e_name data) in
        let! offer := subscript (e_offer data) in
        send_offer username offer connection
      else if String.eqb a_type "answer" then
        let! username := subscript (e_name data) in
        let! answer := subscript (e_answer data) in
        send_answer username answer
      else if String.eqb a_type "candidate" then
        let! username := subscript (e_name data) in
        let! candidate := subscript (e_candidate data) in
        send_candidate_request username candidate
      else if String.eqb a_type "leave" then
        let! username := subscript (e_name data) in
        leave username connection
      else if String.eqb a_type "busy" then
        let! username := subscript (e_name data) in
        busy username
      else if String.eqb a_type "want_to_call" then
        let! username := subscript (e_name data) in
        want_to_call username connection
      else if String.eqb a_type "ready" then
        let! username := subscript (e_name data) in
        handle_ready username connection
      else if String.eqb a_type "quit" then
        let! username := subscript (e_name data) in
        handle_quit username connection
      else if String.eqb a_type "clientping" then
        send_message connection (server_pong "pong")
      else
        send_message connection
          (server_error (String.append "Unrecognized `command`: " a_type))
  | _ => raise TypeError
  end.

(** What [receive_json] produces: a decoded envelope, or
    [WebSocketDisconnect] once the peer has gone. *)
Inductive received :=
  | Json (data : envelope)
  | Disconnect.

(** The transport side of a disconnect: the socket is no longer
    [CONNECTED] when [WebSocketDisconnect] is raised. *)
Definition transport_closed (connection : nat) : Py unit :=
  modify (with_sockets (alter (set_client_state DISCONNECTED) connection)).

(** The [except WebSocketDisconnect] branch *)
Definition on_disconnect (connection : nat) : Py unit :=
  do! transport_closed connection in
  disconnect connection.

(** The loop, fed with what the connection receives.  Only
    [WebSocketDisconnect] is caught; any other exception leaves the loop
    and the function.  With nothing more to receive the loop is waiting. *)
Fixpoint serve (connection : nat) (inbox : list received) : Py unit :=
  match inbox with
  | [] => ret tt
  | Json data :: rest =>
      do! dispatch data connection in serve connection rest
  | Disconnect :: _ => on_disconnect connection
  end.

Definition websocket_endpoint (connection : nat) (inbox : list received)
  : Py unit :=
  do! connect connection in
  serve connection inbox.

(** ** The server as a whole *)

(** A client connects (a new WebSocket object, accepted by the endpoint),
    or an open connection receives something. *)
Inductive action :=
  | Open
  | Receive (connection : nat) (r : received).

Definition new_socket : WebSocket := mkWebSocket None None CONNECTING.

Definition receive (connection : nat) (r : received) : Py unit :=
  match r with
  | Json data => dispatch data connection
  | Disconnect => on_disconnect connection
  end.

Definition step (a : action) (w : World) : World :=
  match a with
  | Open =>
      let connection := length (sockets w) in
      (connect connection (with_sockets (λ s, s ++ [new_socket]) w)).2
  | Receive connection r =>
      if connected w connection then (receive connection r w).2 else w
  end.

Definition start : World := mkWorld init [] [].

Definition run (actions : list action) : World :=
  foldl (λ w a, step a w) start actions.

(** An envelope with a string [type], a [name] or none, and no payload *)
Definition envelope_of (a_type : string) (username : option string) : envelope :=
  mkEnvelope (Some (JStr a_type)) username None None None.


(** The [type] values the endpoint has a case for *)
Definition commands : list string :=
  ["login"; "offer"; "answer"; "candidate"; "leave"; "busy"; "want_to_call";
   "ready"; "quit"; "clientping"].

Definition known (a_type : string) : bool :=
  existsb (String.eqb a_type) commands.

(** ** Presence against pairing *)

(** For every registered username: [busy] goes with a peer name on its
    connection, [online] with none. *)
Definition presence_agrees (w : World) : Prop :=
  ∀ username connection,
    lookup_connection w username = Some connection →
    (status w username = Some "busy" →
       ∃ peer, peerName w connection = Some (Some peer)) ∧
    (status w username = Some "online" →
       peerName w connection = Some None).

(** The connection is registered under the name it carries. *)
Definition logged_in (w : World) (connection : nat) : bool :=
  match userName w connection with
  | Some username =>
      bool_decide (lookup_connection w username = Some connection)
  | None => false
  end.

(** An action is orderly in [w] when a [login] comes from a connection
    that is not logged in and a [ready] or [leave] from one that is. *)
Definition orderly (w : World) (a : action) : bool :=
  match a with
  | Receive connection (Json data) =>
      match e_type data with
      | Some (JStr a_type) =>
          if String.eqb a_type "login" then negb (logged_in w connection)
          else if String.eqb a_type "ready" || String.eqb a_type "leave"
               then logged_in w connection
               else true
      | _ => true
      end
  | _ => true
  end.

Fixpoint orderly_from (w : World) (actions : list action) : bool :=
  match actions with
  | [] => true
  | a :: rest => orderly w a && orderly_from (step a w) rest
  end.

(** What the orderly runs keep: a registered connection carries the name
    it is registered under, has an [otherName], and that [otherName] fits
    the presence status of the name. *)
Definition fits (status : string) (other : option string) : Prop :=
  (status = "busy" → is_Some other) ∧ (status = "online" → other = None).

Definition tidy (w : World) : Prop :=
  ∀ username connection,
    lookup_connection w username = Some connection →
    ∃ ws other,
      sockets w !! connection = Some ws ∧
      name ws = Some username ∧
      otherName ws = Some other ∧
      (∀ s, status w username = Some s → fits s other).

(** A computation that leaves the manager and the sockets as they are. *)
Definition frame {A} (m : Py A) : Prop :=
  ∀ w, manager (m w).2 = manager w ∧ sockets (m w).2 = sockets w.

(** The envelopes of the examples *)
Definition login_as (username : string) : received :=
  Json (envelope_of "login" (Some username)).
Definition ready_for (username : string) : received :=
  Json (envelope_of "ready" (Some username)).
Definition quit_as (username : string) : received :=
  Json (envelope_of "quit" (Some username)).

(** Alice on connection 0 and Bob on connection 1, both logged in; then
    the same after Alice's [ready] for Bob. *)
Definition two_users : World :=
  run [Open; Open; Receive 0 (login_as "alice"); Receive 1 (login_as "bob")].
Definition paired : World := step (Receive 0 (ready_for "bob")) two_users.

(** The paired state with a third connection that is open and has not
    logged in. *)
Definition with_guest : World := step Open paired.

(** ** Relations between the state before and after a computation *)

(** [m] takes every state to one that is [R]-related to it, whether it
    returns or raises. *)
Definition keeps (R : World → World → Prop) {A} (m : Py A) : Prop :=
  ∀ w, R w (m w).2.

(** A socket that exists and is not [CONNECTED]. *)
Definition closed (w : World) (connection : nat) : Prop :=
  connection < length (sockets w) ∧ connected w connection = false.

(** Closed sockets stay closed, the wire only grows, and nothing new on
    it is for a socket that was closed. *)
Definition calm (w w' : World) : Prop :=
  (∀ c, closed w c → closed w' c) ∧
  ∃ extra, wire w' = wire w ++ extra ∧
           ∀ c msg, (c, msg) ∈ extra → ¬ closed w c.

(** The connection has both attributes. *)
Definition has_attributes (w : World) (connection : nat) : Prop :=
  is_Some (userName w connection) ∧ is_Some (peerName w connection).

(** Every registered connection has both attributes. *)
Definition attributes_set (w : World) : Prop :=
  ∀ username connection,
    lookup_connection w username = Some connection →
    has_attributes w connection.

(** No attribute is lost, and a registry entry that is new is for a
    connection with both attributes. *)
Definition settles (w w' : World) : Prop :=
  (∀ u c, lookup_connection w' u = Some c →
          lookup_connection w u = Some c ∨ has_attributes w' c) ∧
  (∀ c, is_Some (userName w c) → is_Some (userName w' c)) ∧
  (∀ c, is_Some (peerName w c) → is_Some (peerName w' c)).

(** Every presence status is ["online"] or ["busy"]. *)
Definition statuses_known (w : World) : Prop :=
  ∀ username s, status w username = Some s → s = "online" ∨ s = "busy".

Definition keeps_statuses (w w' : World) : Prop :=
  statuses_known w → statuses_known w'.

(** Alice and Bob logged in, then Bob's transport gone. *)
Definition bob_gone : World := step (Receive 1 Disconnect) two_users.

(** From a state where [Q] holds, [m] returns. *)
Definition succeeds (Q : World → Prop) {A} (m : Py A) : Prop :=
  ∀ w, Q w → ∃ a, (m w).1 = Returned a.

(** The caller has a [name] and the target has a [name] and an
    [otherName]. *)
Definition readable (caller target : nat) (w : World) : Prop :=
  is_Some (userName w caller) ∧ has_attributes w target.

(** Alice and Bob paired, and Carol logged in on a third connection. *)
Definition crowd : World := step (Receive 2 (login_as "carol")) with_guest.

(** * Facts *)

(** ** Dicts *)
Module DictFacts.
Section DictFacts.
Context {V : Type}.
Implicit Types (d : list (string * V)) (k : string) (v : V).
Import Dict.

Lemma get_set_eq k v d : get k (set k v d) = Some v.
Proof.
  induction d as [|[k' v'] d IH]; simpl.
  - by rewrite String.eqb_refl.
  - destruct (String.eqb k k') eqn:E; simpl; rewrite E; auto.
Qed.

Lemma get_set_ne k k' v d : k ≠ k' → get k (set k' v d) = get k d.
Proof.
  intros Hne. induction d as [|[k2 v2] d IH]; simpl.
  - destruct (String.eqb k k') eqn:E; auto.
    apply String.eqb_eq in E. congruence.
  - destruct (String.eqb k' k2) eqn:E; simpl.
    + apply String.eqb_eq in E. subst k2.
      destruct (String.eqb k k') eqn:E'; auto.
      apply String.eqb_eq in E'. congruence.
    + destruct (String.eqb k k2); auto.
Qed.

Lemma get_set k k' v d :
  get k (set k' v d) = if String.eqb k k' then Some v else get k d.
Proof.
  destruct (String.eqb k k') eqn:E.
  - apply String.eqb_eq in E. subst. apply get_set_eq.
  - apply String.eqb_neq in E. by apply get_set_ne.
Qed.

Lemma get_pop_eq k d : get k (pop k d) = None.
Proof.
  induction d as [|[k' v'] d IH]; simpl; auto.
  destruct (String.eqb k k') eqn:E; simpl; auto. by rewrite E.
Qed.

Lemma get_pop_ne k k' d : k ≠ k' → get k (pop k' d) = get k d.
Proof.
  intros Hne. induction d as [|[k2 v2] d IH]; simpl; auto.
  destruct (String.eqb k' k2) eqn:E; simpl.
  - apply String.eqb_eq in E. subst k2.
    destruct (String.eqb k k') eqn:E'; auto.
    apply String.eqb_eq in E'. congruence.
  - by rewrite IH.
Qed.

Lemma get_pop_Some k k' d v : get k (pop k' d) = Some v → get k d = Some v.
Proof.
  destruct (String.eqb k k') eqn:E.
  - apply String.eqb_eq in E. subst. by rewrite get_pop_eq.
  - apply String.eqb_neq in E. by rewrite get_pop_ne.
Qed.

Lemma pop_absent k d : get k d = None → pop k d = d.
Proof.
  induction d as [|[k' v'] d IH]; simpl; auto.
  destruct (String.eqb k k'); [done|]. intros H. by rewrite IH.
Qed.

Lemma pop_where_never eqo d : (∀ k, eqo k = false) → pop_where eqo d = d.
Proof.
  intros H. induction d as [|[k' v'] d IH]; simpl; auto.
  by rewrite H, IH.
Qed.

Lemma mem_get k d : mem k d = true ↔ is_Some (get k d).
Proof.
  unfold mem. destruct (get k d); split; intros H; eauto; try done.
Qed.

Lemma mem_false k d : mem k d = false ↔ get k d = None.
Proof. unfold mem. destruct (get k d); split; intros H; done. Qed.

End DictFacts.
End DictFacts.

#[local] Arguments send_message : simpl never.
#[local] Arguments update_users_list : simpl never.
#[local] Arguments broadcast : simpl never.

(** ** Sending *)

Lemma with_wire_nil w : with_wire (λ sent, sent ++ []) w = w.
Proof. destruct w as [m s t]. unfold with_wire. simpl. by rewrite app_nil_r. Qed.

Lemma send_message_run c msg w :
  send_message c msg w =
  (Returned tt, if connected w c then send_json c msg w else w).
Proof.
  unfold send_message, bind, gets, modify, ret.
  by destruct (connected w c).
Qed.

Lemma send_each_run cs msg w :
  send_each cs msg w =
  (Returned tt,
   with_wire (λ sent, sent ++
     ((λ c, (c, msg)) <$> filter (λ c, connected w c = true) cs)) w).
Proof.
  revert w. induction cs as [|c cs IH]; intros w; simpl.
  - by rewrite with_wire_nil.
  - unfold bind. rewrite send_message_run, filter_cons.
    destruct (connected w c) eqn:E.
    + rewrite IH. rewrite decide_True by done.
      destruct w as [m s t]. unfold send_json, with_wire, connected. simpl.
      by rewrite <- app_assoc.
    + rewrite IH. by rewrite decide_False by done.
Qed.

Lemma update_users_list_run w :
  update_users_list w =
  (Returned tt, with_wire (λ sent, sent ++ snapshot w) w).
Proof.
  unfold update_users_list, broadcast, bind, gets.
  by rewrite send_each_run.
Qed.

(** ** Attributes under updates of the store *)

Lemma connected_alter f c c' (s : list WebSocket) :
  (∀ ws, client_state (f ws) = client_state ws) →
  match alter f c s !! c' with
  | Some ws => is_CONNECTED (client_state ws)
  | None => false
  end =
  match s !! c' with
  | Some ws => is_CONNECTED (client_state ws)
  | None => false
  end.
Proof.
  intros Hf. destruct (decide (c = c')) as [->|Hne].
  - rewrite list_lookup_alter_eq. destruct (s !! c'); simpl; [|done].
    by rewrite Hf.
  - by rewrite list_lookup_alter_ne.
Qed.

Lemma userName_alter f c c' (s : list WebSocket) :
  (∀ ws, name (f ws) = name ws) →
  alter f c s !! c' ≫= name = s !! c' ≫= name.
Proof.
  intros Hf. destruct (decide (c = c')) as [->|Hne].
  - rewrite list_lookup_alter_eq. destruct (s !! c'); simpl; [|done].
    by rewrite Hf.
  - by rewrite list_lookup_alter_ne.
Qed.

Lemma peerName_set v c c' (s : list WebSocket) :
  alter (set_otherName v) c s !! c' ≫= otherName =
  if decide (c = c')
  then (λ _, v) <$> s !! c'
  else s !! c' ≫= otherName.
Proof.
  case_decide as E.
  - subst. rewrite list_lookup_alter_eq. by destruct (s !! c').
  - by rewrite list_lookup_alter_ne.
Qed.

Lemma connected_exists w c :
  connected w c = true → ∃ ws, sockets w !! c = Some ws.
Proof. unfold connected. destruct (sockets w !! c); eauto. done. Qed.

(** Observations spelled out on the fields of the state. *)
Ltac raw :=
  unfold session, connected, userName, peerName, lookup_connection, status,
    snapshot, send_json, with_wire, with_sockets, with_active_connections,
    with_online_users in *;
  simpl in *.

(** C5.  A login with a name that is already in the registry answers the
    caller with [server_login] [success: false] and changes nothing else:
    the manager and every socket stay as they were and nothing is
    broadcast.  A login with a name that is not registered puts the
    caller in the registry under that name, sets its [name], sets its
    [otherName] to [None] and the status to ["online"], leaves the other
    entries and sockets alone, answers [success: true] and then
    broadcasts the snapshot. *)
Theorem login_user_spec w N c :
  connected w c = true →
  (is_Some (lookup_connection w N) →
     ∃ w', login_user N c w = (Returned tt, w') ∧
       manager w' = manager w ∧ sockets w' = sockets w ∧
       wire w' = wire w ++ [(c, server_login false)]) ∧
  (lookup_connection w N = None →
     ∃ w', login_user N c w = (Returned tt, w') ∧
       lookup_connection w' N = Some c ∧
       userName w' c = Some N ∧
       peerName w' c = Some None ∧
       status w' N = Some "online" ∧
       (∀ u, u ≠ N → lookup_connection w' u = lookup_connection w u
                     ∧ status w' u = status w u) ∧
       (∀ c', c' ≠ c → sockets w' !! c' = sockets w !! c') ∧
       wire w' = wire w ++ (c, server_login true) :: snapshot w').
Proof.
  intros Hc. split.
  - intros Hreg. unfold login_user, bind, gets.
    apply DictFacts.mem_get in Hreg. unfold lookup_connection in *.
    rewrite Hreg, send_message_run, Hc. eexists. split; [done|].
    by destruct w.
  - intros Hreg. unfold login_user, bind, gets.
    apply DictFacts.mem_false in Hreg. rewrite Hreg.
    unfold register_user_connection, update_user_status, setattr_name,
      setattr_otherName, bind, modify.
    rewrite send_message_run.
    destruct w as [[reg pres] socks sent].
    raw. rewrite !connected_alter by done.
    destruct (socks !! c) as [ws|] eqn:Hws; [|done]. rewrite Hc.
    rewrite update_users_list_run. eexists. split; [done|].
    raw. rewrite !list_lookup_alter_eq, Hws. simpl.
    rewrite !DictFacts.get_set_eq.
    repeat split; try done.
    + by apply DictFacts.get_set_ne.
    + by apply DictFacts.get_set_ne.
    + intros c' Hne. by rewrite !list_lookup_alter_ne.
    + by rewrite <- app_assoc.
Qed.

(** ** Relays and probes *)

Lemma getattr_otherName_run w c o :
  peerName w c = Some o → getattr_otherName c w = (Returned o, w).
Proof. unfold getattr_otherName. by intros ->. Qed.



(** C7.  A candidate is relayed to the target's connection when the
    target is registered, its transport is open and its connection has a
    peer name; in every other case nothing is sent and nothing changes. *)
Theorem send_candidate_request_spec w toName candidate :
  (∀ t p, lookup_connection w toName = Some t →
     connected w t = true →
     peerName w t = Some (Some p) →
     send_candidate_request toName candidate w =
       (Returned tt, send_json t (server_candidate candidate) w)) ∧
  (¬ (∃ t p, lookup_connection w toName = Some t ∧
             connected w t = true ∧
             peerName w t = Some (Some p)) →
     (send_candidate_request toName candidate w).2 = w).
Proof.
  unfold send_candidate_request, bind, gets.
  fold (lookup_connection w toName). split.
  - intros t p -> Ht Hp. rewrite (getattr_otherName_run _ _ _ Hp).
    by rewrite send_message_run, Ht.
  - intros Hno. destruct (lookup_connection w toName) as [t|] eqn:Hl; [|done].
    unfold getattr_otherName. destruct (peerName w t) as [[p|]|] eqn:Hp; try done.
    rewrite send_message_run. destruct (connected w t) eqn:Ht; [|done].
    destruct Hno. by exists t, p.
Qed.

(** C8.  The availability probe answers the caller only: [server_nouser]
    [success: false] for a name that is not registered,
    [server_alreadyinroom] [success: true] when the target has a peer
    name and its status is ["busy"], [server_alreadyinroom]
    [success: false] otherwise.  The manager and the sockets are never
    changed. *)
Theorem want_to_call_spec w c toName :
  connected w c = true →
  (lookup_connection w toName = None →
     want_to_call toName c w =
       (Returned tt, send_json c (server_nouser false) w)) ∧
  (∀ t p, lookup_connection w toName = Some t →
     peerName w t = Some (Some p) →
     status w toName = Some "busy" →
     want_to_call toName c w =
       (Returned tt, send_json c (server_alreadyinroom true toName) w)) ∧
  (∀ t o, lookup_connection w toName = Some t →
     peerName w t = Some o →
     o = None ∨ status w toName ≠ Some "busy" →
     want_to_call toName c w =
       (Returned tt, send_json c (server_alreadyinroom false toName) w)) ∧
  manager (want_to_call toName c w).2 = manager w ∧
  sockets (want_to_call toName c w).2 = sockets w.
Proof.
  intros Hopen. unfold want_to_call, bind, gets, get_user_status, ret.
  fold (lookup_connection w toName) (status w toName). repeat split.
  - intros ->. by rewrite send_message_run, Hopen.
  - intros t p -> Hp Hs. rewrite (getattr_otherName_run _ _ _ Hp). simpl.
    fold (status w toName).
    rewrite bool_decide_true by done. by rewrite send_message_run, Hopen.
  - intros t o -> Hp Hs. rewrite (getattr_otherName_run _ _ _ Hp). simpl.
    fold (status w toName).
    destruct Hs as [->|Hs].
    + by rewrite send_message_run, Hopen.
    + destruct o; rewrite ?bool_decide_false by done;
        by rewrite send_message_run, Hopen.
  - destruct (lookup_connection w toName) as [t|].
    + unfold getattr_otherName. destruct (peerName w t) as [[p|]|]; simpl;
        try done; repeat case_bool_decide;
        by rewrite send_message_run, Hopen.
    + by rewrite send_message_run, Hopen.
  - destruct (lookup_connection w toName) as [t|].
    + unfold getattr_otherName. destruct (peerName w t) as [[p|]|]; simpl;
        try done; repeat case_bool_decide;
        by rewrite send_message_run, Hopen.
    + by rewrite send_message_run, Hopen.
Qed.

(** ** Pairing *)


(** ** Quitting *)

(** What [handle_quit] leaves behind for a caller whose [name] is [me]. *)
Lemma handle_quit_run w me c username :
  userName w c = Some me →
  handle_quit username c w =
  (Returned tt,
   let w' := with_online_users (Dict.pop username)
               (with_active_connections (Dict.pop me) w) in
   with_wire (λ sent, sent ++ snapshot w') w').
Proof.
  intros Hme. unfold handle_quit, bind, gets, modify, ret, getattr_name.
  destruct w as [[reg pres] socks sent]. raw. rewrite Hme.
  cbn.
  destruct (Dict.mem me reg) eqn:Hreg; cbn; rewrite ?Hme; cbn;
    destruct (Dict.mem username pres) eqn:Hpres; cbn;
    rewrite update_users_list_run; raw;
    try (apply DictFacts.mem_false in Hreg;
         rewrite (DictFacts.pop_absent _ _ Hreg));
    try (apply DictFacts.mem_false in Hpres;
         rewrite (DictFacts.pop_absent _ _ Hpres));
    done.
Qed.

(** C4, as the code has it.  A quit from the session of [S] removes the
    registry entry of [S] and the presence entry of the name the message
    carries (the caller's own when the message names the caller), touches
    no other entry and no socket, and then broadcasts the snapshot. *)
Theorem handle_quit_spec w S c username :
  session w S c →
  ∃ w', handle_quit username c w = (Returned tt, w') ∧
    lookup_connection w' S = None ∧
    status w' username = None ∧
    (∀ u, u ≠ S → lookup_connection w' u = lookup_connection w u) ∧
    (∀ u, u ≠ username → status w' u = status w u) ∧
    sockets w' = sockets w ∧
    wire w' = wire w ++ snapshot w'.
Proof.
  intros (_ & Hme & _). rewrite (handle_quit_run _ _ _ _ Hme).
  eexists. split; [done|]. destruct w as [[reg pres] socks sent]. raw.
  repeat split.
  - apply DictFacts.get_pop_eq.
  - apply DictFacts.get_pop_eq.
  - intros u Hu. by apply DictFacts.get_pop_ne.
  - intros u Hu. by apply DictFacts.get_pop_ne.
Qed.

(** C10.  When [A] and [B] are paired and busy and [A] quits under its
    own name, [A] leaves the registry and the presence map while [B]
    stays registered, still with peer name [A] and status ["busy"]; quit
    changes no peer name and no presence entry but the one it removes. *)
Theorem handle_quit_leaves_peer_paired w A B cA cB :
  A ≠ B →
  session w A cA →
  lookup_connection w B = Some cB →
  peerName w cA = Some (Some B) →
  peerName w cB = Some (Some A) →
  status w A = Some "busy" →
  status w B = Some "busy" →
  ∃ w', handle_quit A cA w = (Returned tt, w') ∧
    lookup_connection w' A = None ∧
    status w' A = None ∧
    lookup_connection w' B = Some cB ∧
    peerName w' cB = Some (Some A) ∧
    status w' B = Some "busy" ∧
    (∀ c, peerName w' c = peerName w c) ∧
    (∀ u, u ≠ A → status w' u = status w u).
Proof.
  intros Hne (_ & Hme & _) HB _ HpB _ HsB.
  rewrite (handle_quit_run _ _ _ _ Hme).
  eexists. split; [done|]. destruct w as [[reg pres] socks sent]. raw.
  repeat split; try done.
  - apply DictFacts.get_pop_eq.
  - apply DictFacts.get_pop_eq.
  - by rewrite DictFacts.get_pop_ne.
  - by rewrite DictFacts.get_pop_ne.
  - intros u Hu. by apply DictFacts.get_pop_ne.
Qed.

(** ** Disconnecting *)

Lemma disconnect_run c w : disconnect c w = (Returned tt, w).
Proof.
  unfold disconnect, modify. destruct w as [[reg pres] socks sent]. raw.
  by rewrite DictFacts.pop_where_never.
Qed.

Lemma on_disconnect_run c w :
  on_disconnect c w =
  (Returned tt, with_sockets (alter (set_client_state DISCONNECTED) c) w).
Proof.
  unfold on_disconnect, transport_closed, bind, modify.
  by rewrite disconnect_run.
Qed.

Lemma on_disconnect_keeps_manager c w :
  manager (on_disconnect c w).2 = manager w ∧
  wire (on_disconnect c w).2 = wire w.
Proof. by rewrite on_disconnect_run. Qed.

(** C3, the code at the failing input.  With Alice and Bob logged in,
    a transport disconnect of Alice leaves her in the registry and in the
    presence map and sends nothing, whereas her quit removes both entries
    and broadcasts the snapshot to Bob. *)
Theorem disconnect_keeps_session :
  let w := run [Open; Open; Receive 0 (login_as "alice");
                Receive 1 (login_as "bob")] in
  let closed := step (Receive 0 Disconnect) w in
  let quit := step (Receive 0 (quit_as "alice")) w in
  session w "alice" 0 ∧
  (lookup_connection closed "alice" = Some 0 ∧
   status closed "alice" = Some "online" ∧
   wire closed = wire w) ∧
  (lookup_connection quit "alice" = None ∧
   status quit "alice" = None ∧
   wire quit = wire w ++ [(1, server_userlist [("bob", "online")])]).
Proof. vm_compute. repeat split. Qed.

(** ** Dispatching *)

(** Comparisons of a literal [type] with the literals of the cases *)
Ltac literal_cases :=
  repeat match goal with
  | |- context [String.eqb ?a ?b] =>
      let v := eval vm_compute in (String.eqb a b) in
      change (String.eqb a b) with v
  end;
  cbv iota.

Lemma known_false a_type :
  known a_type = false →
  Forall (λ cmd, String.eqb a_type cmd = false) commands.
Proof.
  unfold known. generalize commands. intros cmds.
  induction cmds as [|cmd cmds IH]; intros H; [constructor|].
  change (String.eqb a_type cmd || existsb (String.eqb a_type) cmds = false) in H.
  apply orb_false_elim in H as [H1 H2]. constructor; auto.
Qed.

Lemma known_true a_type : known a_type = true → In a_type commands.
Proof.
  unfold known. intros H. apply existsb_exists in H as (cmd & Hin & Heq).
  apply String.eqb_eq in Heq. by subst.
Qed.

(** C9 fails: a [login] envelope without a [name] raises [KeyError], which
    leaves the loop before the next message is looked at, and an envelope
    without a [type] raises [TypeError]. *)
Lemma dispatch_missing_field_raises :
  let w := run [Open] in
  connected w 0 = true ∧
  dispatch (envelope_of "login" None) 0 w = (Raised KeyError, w) ∧
  serve 0 [Json (envelope_of "login" None); login_as "alice"] w =
    (Raised KeyError, w) ∧
  dispatch (mkEnvelope None (Some "alice") None None None) 0 w =
    (Raised TypeError, w).
Proof. vm_compute. repeat split. Qed.

(** C9, as the code has it.  For an envelope with a string [type] on an
    open connection: an unknown command is answered with [server_error]
    and the loop goes on; a known command with its fields present runs
    the matching method of the manager; a known command without its
    [name] raises [KeyError] out of the loop, nothing changed and nothing
    sent. *)
Theorem dispatch_spec w c data a_type rest :
  connected w c = true →
  e_type data = Some (JStr a_type) →
  (known a_type = false →
     dispatch data c w =
       (Returned tt,
        send_json c
          (server_error (String.append "Unrecognized `command`: " a_type)) w) ∧
     serve c (Json data :: rest) w =
       serve c rest
         (send_json c
            (server_error (String.append "Unrecognized `command`: " a_type)) w)) ∧
  (∀ username, e_name data = Some username →
     (a_type = "login" → dispatch data c w = login_user username c w) ∧
     (a_type = "offer" → ∀ offer, e_offer data = Some offer →
        dispatch data c w = send_offer username offer c w) ∧
     (a_type = "answer" → ∀ answer, e_answer data = Some answer →
        dispatch data c w = send_answer username answer w) ∧
     (a_type = "candidate" → ∀ candidate, e_candidate data = Some candidate →
        dispatch data c w = send_candidate_request username candidate w) ∧
     (a_type = "leave" → dispatch data c w = leave username c w) ∧
     (a_type = "busy" → dispatch data c w = busy username w) ∧
     (a_type = "want_to_call" →
        dispatch data c w = want_to_call username c w) ∧
     (a_type = "ready" → dispatch data c w = handle_ready username c w) ∧
     (a_type = "quit" → dispatch data c w = handle_quit username c w)) ∧
  (a_type = "clientping" →
     dispatch data c w = (Returned tt, send_json c (server_pong "pong") w)) ∧
  (known a_type = true → a_type ≠ "clientping" → e_name data = None →
     dispatch data c w = (Raised KeyError, w) ∧
     serve c (Json data :: rest) w = (Raised KeyError, w)).
Proof.
  intros Hopen Htype. unfold serve; fold serve. unfold dispatch, bind.
  rewrite Htype. split; [|split; [|split]].
  - intros Hk. pose proof (known_false _ Hk) as F. unfold commands in F.
    repeat (apply Forall_cons in F as [E F]; rewrite E; clear E).
    by rewrite send_message_run, Hopen.
  - intros username Hname. rewrite Hname.
    repeat split; intros ->; literal_cases; try done.
    + intros offer Ho. by rewrite Ho.
    + intros answer Ha. by rewrite Ha.
    + intros candidate Hcand. by rewrite Hcand.
  - intros ->. literal_cases. by rewrite send_message_run, Hopen.
  - intros Hk Hping Hname. rewrite Hname. apply known_true in Hk.
    unfold commands in Hk.
    repeat (destruct Hk as [<-|Hk]; [literal_cases; done|]).
    destruct Hk.
Qed.

(** ** Computations that only send *)

Lemma frame_ret {A} (a : A) : frame (ret a).
Proof. done. Qed.

Lemma frame_raise {A} e : frame (@raise A e).
Proof. done. Qed.

Lemma frame_gets {A} (f : World → A) : frame (gets f).
Proof. done. Qed.

Lemma frame_bind {A B} (m : Py A) (k : A → Py B) :
  frame m → (∀ a, frame (k a)) → frame (bind m k).
Proof.
  intros Hm Hk w. unfold bind. specialize (Hm w).
  destruct (m w) as [[a|e] w1]; simpl in *; [|done].
  destruct (Hk a w1) as [-> ->]. done.
Qed.

Lemma frame_send_message c msg : frame (send_message c msg).
Proof. intros w. rewrite send_message_run. by destruct (connected w c). Qed.

Lemma frame_update_users_list : frame update_users_list.
Proof. intros w. by rewrite update_users_list_run. Qed.

Lemma frame_getattr_name c : frame (getattr_name c).
Proof. intros w. unfold getattr_name. by destruct (userName w c). Qed.

Lemma frame_getattr_otherName c : frame (getattr_otherName c).
Proof. intros w. unfold getattr_otherName. by destruct (peerName w c). Qed.

Lemma frame_subscript {A} (field : option A) : frame (subscript field).
Proof. by destruct field. Qed.

Ltac frame_step :=
  first
    [ apply frame_ret | apply frame_raise | apply frame_gets
    | apply frame_send_message | apply frame_update_users_list
    | apply frame_getattr_name | apply frame_getattr_otherName
    | apply frame_subscript
    | apply frame_bind; [|intros ?]
    | match goal with
      | |- frame (match ?x with _ => _ end) => destruct x
      end ].

Lemma frame_send_offer username offer c : frame (send_offer username offer c).
Proof. unfold send_offer. repeat frame_step. Qed.

Lemma frame_send_answer username answer : frame (send_answer username answer).
Proof. unfold send_answer. repeat frame_step. Qed.

Lemma frame_send_candidate_request username candidate :
  frame (send_candidate_request username candidate).
Proof. unfold send_candidate_request. repeat frame_step. Qed.

Lemma frame_busy username : frame (busy username).
Proof. unfold busy. repeat frame_step. Qed.

Lemma frame_want_to_call username c : frame (want_to_call username c).
Proof. unfold want_to_call, get_user_status. repeat frame_step. Qed.

(** ** What login, ready, leave and quit do to the manager and the sockets *)

Lemma login_user_taken w N c :
  is_Some (lookup_connection w N) →
  manager (login_user N c w).2 = manager w ∧
  sockets (login_user N c w).2 = sockets w.
Proof.
  intros H. apply DictFacts.mem_get in H.
  unfold login_user, bind, gets. rewrite H. apply frame_send_message.
Qed.

Lemma login_user_core w N c :
  lookup_connection w N = None →
  manager (login_user N c w).2 =
    mkConnectionManager (Dict.set N c (active_connections (manager w)))
                        (Dict.set N "online" (online_users (manager w))) ∧
  sockets (login_user N c w).2 =
    alter (set_otherName None) c (alter (set_name N) c (sockets w)).
Proof.
  intros H. apply DictFacts.mem_false in H.
  unfold login_user, bind, gets. rewrite H.
  unfold register_user_connection, update_user_status, setattr_name,
    setattr_otherName, bind, modify.
  rewrite send_message_run.
  match goal with |- context [connected ?w' c] => destruct (connected w' c) end;
    by rewrite update_users_list_run.
Qed.

Lemma handle_ready_core w B c t A nB :
  lookup_connection w B = Some t →
  userName w c = Some A →
  userName w t = Some nB →
  manager (handle_ready B c w).2 =
    mkConnectionManager (active_connections (manager w))
      (Dict.set A "busy" (Dict.set B "busy" (online_users (manager w)))) ∧
  sockets (handle_ready B c w).2 =
    alter (set_otherName (Some A)) t
      (alter (set_otherName (Some B)) c (sockets w)).
Proof.
  intros Hl HcA HtB. unfold handle_ready, bind, gets.
  fold (lookup_connection w B). rewrite Hl.
  unfold setattr_otherName, update_user_status, modify, getattr_name.
  destruct w as [[reg pres] socks sent]. raw.
  rewrite !userName_alter by done. rewrite HcA. simpl.
  rewrite !userName_alter by done. rewrite HcA. simpl.
  rewrite !userName_alter by done. rewrite HcA. simpl.
  rewrite send_message_run.
  match goal with |- context [connected ?w' t] => destruct (connected w' t) end;
    raw; rewrite !userName_alter by done; rewrite HtB; simpl;
    rewrite send_message_run;
    match goal with |- context [connected ?w' c] => destruct (connected w' c) end;
    by rewrite update_users_list_run.
Qed.

Lemma leave_core w B c t A :
  lookup_connection w B = Some t →
  userName w c = Some A →
  manager (leave B c w).2 =
    mkConnectionManager (active_connections (manager w))
      (Dict.set A "online" (Dict.set B "online" (online_users (manager w)))) ∧
  sockets (leave B c w).2 =
    alter (set_otherName None) c (alter (set_otherName None) t (sockets w)).
Proof.
  intros Hl HcA. unfold leave, bind, gets.
  fold (lookup_connection w B). rewrite Hl.
  unfold setattr_otherName, update_user_status, modify, getattr_name.
  rewrite send_message_run.
  destruct w as [[reg pres] socks sent].
  match goal with |- context [connected ?w' t] => destruct (connected w' t) end;
    rewrite send_message_run;
    match goal with |- context [connected ?w' c] => destruct (connected w' c) end;
    raw; rewrite HcA; simpl; by rewrite update_users_list_run.
Qed.

(** ** Orderly runs stay tidy *)

Lemma tidy_core w w' :
  manager w' = manager w → sockets w' = sockets w → tidy w → tidy w'.
Proof.
  intros Hm Hs Hw u c. unfold tidy, lookup_connection, status in *.
  rewrite Hm, Hs. apply Hw.
Qed.

Lemma tidy_frame {A} (m : Py A) w : frame m → tidy w → tidy (m w).2.
Proof. intros Hm. destruct (Hm w). by apply tidy_core. Qed.

Lemma tidy_start : tidy start.
Proof. intros u c H. done. Qed.

Lemma tidy_userName w u c :
  tidy w → lookup_connection w u = Some c → userName w c = Some u.
Proof.
  intros Hw Hl. destruct (Hw _ _ Hl) as (ws & o & Hws & Hn & _).
  unfold userName. by rewrite Hws.
Qed.

Lemma tidy_logged_in w u c :
  tidy w → lookup_connection w u = Some c → logged_in w c = true.
Proof.
  intros Hw Hl. unfold logged_in. rewrite (tidy_userName _ _ _ Hw Hl).
  by apply bool_decide_eq_true.
Qed.

Lemma logged_in_inv w c :
  logged_in w c = true →
  ∃ u, userName w c = Some u ∧ lookup_connection w u = Some c.
Proof.
  unfold logged_in. destruct (userName w c) as [u|]; [|done].
  intros H. apply bool_decide_eq_true in H. eauto.
Qed.

Lemma tidy_same_user w u u' c :
  tidy w → lookup_connection w u = Some c → lookup_connection w u' = Some c →
  u = u'.
Proof.
  intros Hw H1 H2. apply (tidy_userName _ _ _ Hw) in H1, H2. congruence.
Qed.

Lemma fits_fresh s : s = "online" → fits s None.
Proof. intros ->. split; [done|done]. Qed.

Lemma tidy_login w N c m' t' :
  tidy w →
  logged_in w c = false →
  is_Some (sockets w !! c) →
  active_connections m' = Dict.set N c (active_connections (manager w)) →
  online_users m' = Dict.set N "online" (online_users (manager w)) →
  tidy (mkWorld m'
          (alter (set_otherName None) c (alter (set_name N) c (sockets w))) t').
Proof.
  intros Hw Hout [ws Hws] Hreg Hpres u c'.
  unfold lookup_connection, status. simpl. rewrite Hreg, Hpres.
  rewrite !DictFacts.get_set.
  destruct (String.eqb u N) eqn:E.
  - apply String.eqb_eq in E. subst u. intros [= <-].
    rewrite !list_lookup_alter_eq, Hws. simpl.
    eexists _, _. do 3 (split; [done|]). intros s' [= <-]. by apply fits_fresh.
  - intros Hl. destruct (Hw _ _ Hl) as (ws' & o & Hws' & Hn & Ho & Hfit).
    assert (c ≠ c') as Hne.
    { intros ->. by rewrite (tidy_logged_in _ _ _ Hw Hl) in Hout. }
    rewrite !list_lookup_alter_ne by done. eauto 10.
Qed.

Lemma tidy_pair w U1 U2 x1 x2 v1 v2 s m' t' :
  tidy w →
  lookup_connection w U1 = Some x1 →
  lookup_connection w U2 = Some x2 →
  fits s v1 → fits s v2 →
  active_connections m' = active_connections (manager w) →
  (∀ u, Dict.get u (online_users m') =
        if String.eqb u U1 || String.eqb u U2 then Some s else status w u) →
  tidy (mkWorld m'
          (alter (set_otherName v1) x1
             (alter (set_otherName v2) x2 (sockets w))) t').
Proof.
  intros Hw H1 H2 Hv1 Hv2 Hreg Hpres u c'.
  unfold lookup_connection, status. simpl. rewrite Hreg, Hpres.
  intros Hl. destruct (Hw _ _ Hl) as (ws & o & Hws & Hn & Ho & Hfit).
  destruct (decide (x1 = c')) as [->|Hx1].
  - assert (u = U1) as -> by eauto using tidy_same_user.
    rewrite String.eqb_refl. simpl.
    rewrite list_lookup_alter_eq.
    destruct (decide (x2 = c')) as [->|Hx2].
    + rewrite list_lookup_alter_eq, Hws. simpl.
      eexists _, _. do 3 (split; [done|]). by intros ? [= <-].
    + rewrite list_lookup_alter_ne, Hws by done. simpl.
      eexists _, _. do 3 (split; [done|]). by intros ? [= <-].
  - rewrite list_lookup_alter_ne by done.
    destruct (decide (x2 = c')) as [->|Hx2].
    + assert (u = U2) as -> by eauto using tidy_same_user.
      rewrite String.eqb_refl, orb_true_r.
      rewrite list_lookup_alter_eq, Hws. simpl.
      eexists _, _. do 3 (split; [done|]). by intros ? [= <-].
    + rewrite list_lookup_alter_ne, Hws by done.
      assert (String.eqb u U1 = false) as ->.
      { apply String.eqb_neq. intros ->.
        unfold lookup_connection in *. congruence. }
      assert (String.eqb u U2 = false) as ->.
      { apply String.eqb_neq. intros ->.
        unfold lookup_connection in *. congruence. }
      simpl. eauto 10.
Qed.

Lemma tidy_quit w me username t' :
  tidy w →
  tidy (mkWorld
          (mkConnectionManager (Dict.pop me (active_connections (manager w)))
                               (Dict.pop username (online_users (manager w))))
          (sockets w) t').
Proof.
  intros Hw u c'. unfold lookup_connection, status. simpl.
  intros Hl%DictFacts.get_pop_Some.
  destruct (Hw _ _ Hl) as (ws & o & Hws & Hn & Ho & Hfit).
  eexists _, _. do 3 (split; [done|]).
  intros s' Hs%DictFacts.get_pop_Some. by apply Hfit.
Qed.

Lemma tidy_client_state w c v :
  tidy w → tidy (with_sockets (alter (set_client_state v) c) w).
Proof.
  intros Hw u c' Hl. unfold lookup_connection, status in *. raw.
  destruct (Hw _ _ Hl) as (ws & o & Hws & Hn & Ho & Hfit).
  destruct (decide (c = c')) as [->|Hne].
  - rewrite list_lookup_alter_eq, Hws. simpl. eauto 10.
  - rewrite list_lookup_alter_ne by done. eauto 10.
Qed.

Lemma tidy_open w : tidy w → tidy (step Open w).
Proof.
  intros Hw. unfold step, connect, modify. simpl.
  apply (tidy_client_state (with_sockets (λ s, s ++ [new_socket]) w)).
  intros u c' Hl. destruct (Hw _ _ Hl) as (ws & o & Hws & Hn & Ho & Hfit).
  exists ws, o. split; [|done].
  raw. by apply lookup_app_l_Some.
Qed.

Lemma tidy_as m' s' t' (w' : World) :
  manager w' = m' → sockets w' = s' → tidy (mkWorld m' s' t') → tidy w'.
Proof. intros <- <-. by apply tidy_core. Qed.

Lemma tidy_login_user w N c :
  tidy w → logged_in w c = false → connected w c = true →
  tidy (login_user N c w).2.
Proof.
  intros Hw Hout Hopen.
  destruct (lookup_connection w N) as [c'|] eqn:Hl.
  - destruct (login_user_taken w N c) as [Hm Hs]; [by rewrite Hl|].
    by apply (tidy_core w).
  - destruct (login_user_core w N c Hl) as [Hm Hs].
    eapply (tidy_as _ _ []); [done..|].
    apply tidy_login; try done.
    destruct (connected_exists _ _ Hopen) as [ws ->]. done.
Qed.

Lemma tidy_handle_ready w B c :
  tidy w → logged_in w c = true → tidy (handle_ready B c w).2.
Proof.
  intros Hw (A & HcA & HA)%logged_in_inv.
  destruct (lookup_connection w B) as [t|] eqn:Hl.
  - pose proof (tidy_userName _ _ _ Hw Hl) as HtB.
    destruct (handle_ready_core w B c t A B Hl HcA HtB) as [Hm Hs].
    eapply (tidy_as _ _ []); [done..|].
    apply (tidy_pair w B A t c _ _ "busy"); try done.
    intros u. simpl. rewrite !DictFacts.get_set. unfold status.
    by destruct (String.eqb u A), (String.eqb u B).
  - unfold handle_ready, bind, gets. fold (lookup_connection w B).
    by rewrite Hl.
Qed.

Lemma tidy_leave w B c :
  tidy w → logged_in w c = true → tidy (leave B c w).2.
Proof.
  intros Hw (A & HcA & HA)%logged_in_inv.
  destruct (lookup_connection w B) as [t|] eqn:Hl.
  - destruct (leave_core w B c t A Hl HcA) as [Hm Hs].
    eapply (tidy_as _ _ []); [done..|].
    apply (tidy_pair w A B c t _ _ "online"); try done.
    intros u. simpl. rewrite !DictFacts.get_set. unfold status.
    by destruct (String.eqb u A), (String.eqb u B).
  - unfold leave, bind, gets. fold (lookup_connection w B).
    by rewrite Hl.
Qed.

Lemma tidy_handle_quit w username c :
  tidy w → tidy (handle_quit username c w).2.
Proof.
  intros Hw. destruct (userName w c) as [me|] eqn:Hme.
  - rewrite (handle_quit_run _ _ _ _ Hme). simpl.
    eapply (tidy_as _ _ []); [done..|].
    unfold with_wire, with_online_users, with_active_connections. simpl.
    by apply tidy_quit.
  - unfold handle_quit, bind, getattr_name. by rewrite Hme.
Qed.

Lemma tidy_named {A} (field : option A) (k : A → Py unit) w :
  tidy w → (∀ v, tidy (k v w).2) → tidy (bind (subscript field) k w).2.
Proof. intros Hw Hk. destruct field; [apply Hk|done]. Qed.

Lemma tidy_dispatch w c data :
  tidy w → connected w c = true →
  orderly w (Receive c (Json data)) = true →
  tidy (dispatch data c w).2.
Proof.
  intros Hw Hopen. unfold orderly, dispatch.
  destruct (e_type data) as [[| | |a_type| |]|]; try done.
  destruct (String.eqb a_type "login").
  { intros Hout%negb_true_iff. apply tidy_named; [done|]. intros N.
    by apply tidy_login_user. }
  destruct (String.eqb a_type "offer").
  { intros _. apply tidy_frame; [|done].
    repeat first [apply frame_send_offer | frame_step]. }
  destruct (String.eqb a_type "answer").
  { intros _. apply tidy_frame; [|done].
    repeat first [apply frame_send_answer | frame_step]. }
  destruct (String.eqb a_type "candidate").
  { intros _. apply tidy_frame; [|done].
    repeat first [apply frame_send_candidate_request | frame_step]. }
  destruct (String.eqb a_type "leave").
  { rewrite orb_true_r. intros Hin. apply tidy_named; [done|]. intros B.
    by apply tidy_leave. }
  destruct (String.eqb a_type "busy").
  { intros _. apply tidy_frame; [|done].
    repeat first [apply frame_busy | frame_step]. }
  destruct (String.eqb a_type "want_to_call").
  { intros _. apply tidy_frame; [|done].
    repeat first [apply frame_want_to_call | frame_step]. }
  destruct (String.eqb a_type "ready").
  { intros Hin. apply tidy_named; [done|]. intros B.
    by apply tidy_handle_ready. }
  destruct (String.eqb a_type "quit").
  { intros _. apply tidy_named; [done|]. intros u.
    by apply tidy_handle_quit. }
  intros _. destruct (String.eqb a_type "clientping");
    apply tidy_frame; try done; apply frame_send_message.
Qed.

Lemma tidy_step w a : tidy w → orderly w a = true → tidy (step a w).
Proof.
  intros Hw Ha. destruct a as [|c [data|]].
  - by apply tidy_open.
  - unfold step. destruct (connected w c) eqn:Hopen; [|done].
    by apply tidy_dispatch.
  - unfold step. destruct (connected w c) eqn:Hopen; [|done].
    unfold receive. rewrite on_disconnect_run. by apply tidy_client_state.
Qed.

Lemma tidy_run w actions :
  tidy w → orderly_from w actions = true →
  tidy (foldl (λ w a, step a w) w actions).
Proof.
  revert w. induction actions as [|a actions IH]; intros w Hw Ho; [done|].
  simpl in *. apply andb_true_iff in Ho as [Ha Ho].
  apply IH; [by apply tidy_step|done].
Qed.

Lemma tidy_presence_agrees w : tidy w → presence_agrees w.
Proof.
  intros Hw u c Hl. destruct (Hw _ _ Hl) as (ws & o & Hws & Hn & Ho & Hfit).
  unfold peerName. rewrite Hws. simpl. rewrite Ho. split; intros Hs.
  - destruct (Hfit _ Hs) as [Hb _]. destruct (Hb eq_refl) as [p ->]. eauto.
  - destruct (Hfit _ Hs) as [_ Hb]. by rewrite Hb.
Qed.

(** C2 fails on runs in general: Alice pairs with Bob and then logs in
    again as Carol on the same connection; ["alice"] is still registered
    and busy, and her connection has no peer name. *)
Lemma relogin_breaks_presence_agrees :
  ¬ ∀ actions, presence_agrees (run actions).
Proof.
  intros H.
  destruct (H [Open; Open; Receive 0 (login_as "alice");
               Receive 1 (login_as "bob"); Receive 0 (ready_for "bob");
               Receive 0 (login_as "carol")] "alice" 0 eq_refl) as [Hbusy _].
  destruct (Hbusy eq_refl) as [peer Hpeer]. vm_compute in Hpeer. done.
Qed.

(** C2, as the code has it.  After any orderly run from the empty state
    (each login from a connection that is not logged in, each ready or
    leave from one that is), every registered username with status
    ["busy"] has a peer name on its connection and every one with status
    ["online"] has none. *)
Theorem orderly_presence_agrees actions :
  orderly_from start actions = true → presence_agrees (run actions).
Proof.
  intros Ho. apply tidy_presence_agrees. unfold run.
  apply tidy_run; [apply tidy_start|done].
Qed.

(** ** The theorems at work *)

Lemma two_users_alice : session two_users "alice" 0.
Proof. vm_compute. repeat split. Defined.

Lemma two_users_bob : session two_users "bob" 1.
Proof. vm_compute. repeat split. Defined.

Lemma paired_alice : session paired "alice" 0.
Proof. vm_compute. repeat split. Defined.



Lemma orderly_presence_agrees_witness :
  orderly_from start
    [Open; Open; Receive 0 (login_as "alice"); Receive 1 (login_as "bob");
     Receive 0 (ready_for "bob"); Receive 1 (quit_as "bob")] = true ∧
  presence_agrees
    (run [Open; Open; Receive 0 (login_as "alice"); Receive 1 (login_as "bob");
          Receive 0 (ready_for "bob"); Receive 1 (quit_as "bob")]).
Proof.
  split; [reflexivity|]. apply orderly_presence_agrees. reflexivity.
Defined.

Lemma handle_quit_names_another_user :
  session two_users "alice" 0 ∧
  status two_users "alice" = Some "online" ∧
  status two_users "bob" = Some "online" ∧
  status (handle_quit "bob" 0 two_users).2 "alice" = Some "online" ∧
  status (handle_quit "bob" 0 two_users).2 "bob" = None ∧
  lookup_connection (handle_quit "bob" 0 two_users).2 "alice" = None.
Proof. vm_compute. repeat split. Qed.

Lemma handle_quit_spec_witness :
  session two_users "alice" 0 ∧
  ∃ w', handle_quit "alice" 0 two_users = (Returned tt, w') ∧
    lookup_connection w' "alice" = None ∧
    status w' "alice" = None ∧
    lookup_connection w' "bob" = lookup_connection two_users "bob" ∧
    status w' "bob" = status two_users "bob".
Proof.
  split; [apply two_users_alice|].
  destruct (handle_quit_spec two_users "alice" 0 "alice" two_users_alice)
    as (w' & Hrun & H1 & H2 & H3 & H4 & _).
  exists w'. repeat split; try assumption.
  - apply H3. discriminate.
  - apply H4. discriminate.
Defined.

Lemma login_user_spec_witness :
  connected two_users 1 = true ∧
  (is_Some (lookup_connection two_users "alice") ∧
   ∃ w', login_user "alice" 1 two_users = (Returned tt, w') ∧
     manager w' = manager two_users ∧ sockets w' = sockets two_users ∧
     wire w' = wire two_users ++ [(1, server_login false)]) ∧
  (lookup_connection two_users "carol" = None ∧
   ∃ w', login_user "carol" 1 two_users = (Returned tt, w') ∧
     lookup_connection w' "carol" = Some 1 ∧
     peerName w' 1 = Some None ∧
     status w' "carol" = Some "online").
Proof.
  assert (Hopen : connected two_users 1 = true) by reflexivity.
  split; [exact Hopen|]. split.
  - assert (Htaken : is_Some (lookup_connection two_users "alice"))
      by (exists 0; reflexivity).
    split; [exact Htaken|].
    apply (proj1 (login_user_spec two_users "alice" 1 Hopen) Htaken).
  - split; [reflexivity|].
    destruct (proj2 (login_user_spec two_users "carol" 1 Hopen) eq_refl)
      as (w' & Hrun & H1 & H2 & H3 & H4 & _).
    exists w'. repeat split; assumption.
Defined.



Lemma send_candidate_request_spec_witness :
  send_candidate_request "bob" (JStr "ice") paired =
    (Returned tt, send_json 1 (server_candidate (JStr "ice")) paired) ∧
  (send_candidate_request "bob" (JStr "ice") two_users).2 = two_users.
Proof.
  split.
  - apply (proj1 (send_candidate_request_spec paired "bob" (JStr "ice"))
             1 "alice"); reflexivity.
  - apply (proj2 (send_candidate_request_spec two_users "bob" (JStr "ice"))).
    intros (t & p & Hl & _ & Hp).
    assert (t = 1) as -> by (vm_compute in Hl; congruence).
    vm_compute in Hp. discriminate.
Defined.

Lemma want_to_call_spec_witness :
  connected two_users 0 = true ∧
  want_to_call "carol" 0 two_users =
    (Returned tt, send_json 0 (server_nouser false) two_users) ∧
  want_to_call "bob" 0 two_users =
    (Returned tt, send_json 0 (server_alreadyinroom false "bob") two_users) ∧
  want_to_call "bob" 0 paired =
    (Returned tt, send_json 0 (server_alreadyinroom true "bob") paired).
Proof.
  split; [reflexivity|]. split; [|split].
  - apply (want_to_call_spec two_users 0 "carol"); reflexivity.
  - apply (proj1 (proj2 (proj2 (want_to_call_spec two_users 0 "bob" eq_refl)))
             1 None); [reflexivity..|]. by left.
  - apply (proj1 (proj2 (want_to_call_spec paired 0 "bob" eq_refl))
             1 "alice"); reflexivity.
Defined.

Lemma handle_quit_leaves_peer_paired_witness :
  ("alice" ≠ "bob" ∧ session paired "alice" 0 ∧
   lookup_connection paired "bob" = Some 1 ∧
   peerName paired 0 = Some (Some "bob") ∧
   peerName paired 1 = Some (Some "alice") ∧
   status paired "alice" = Some "busy" ∧
   status paired "bob" = Some "busy") ∧
  ∃ w', handle_quit "alice" 0 paired = (Returned tt, w') ∧
    lookup_connection w' "alice" = None ∧
    lookup_connection w' "bob" = Some 1 ∧
    peerName w' 1 = Some (Some "alice") ∧
    status w' "bob" = Some "busy".
Proof.
  assert (Hne : "alice" ≠ "bob") by discriminate.
  split.
  - split; [exact Hne|]. split; [apply paired_alice|].
    repeat split; reflexivity.
  - destruct (handle_quit_leaves_peer_paired paired "alice" "bob" 0 1 Hne
                paired_alice eq_refl eq_refl eq_refl eq_refl eq_refl)
      as (w' & Hrun & H1 & H2 & H3 & H4 & H5 & _).
    exists w'. repeat split; assumption.
Defined.

Lemma dispatch_spec_witness :
  connected (run [Open]) 0 = true ∧
  dispatch (envelope_of "dance" None) 0 (run [Open]) =
    (Returned tt,
     send_json 0 (server_error "Unrecognized `command`: dance") (run [Open])) ∧
  dispatch (envelope_of "login" (Some "alice")) 0 (run [Open]) =
    login_user "alice" 0 (run [Open]) ∧
  dispatch (envelope_of "ready" None) 0 (run [Open]) =
    (Raised KeyError, run [Open]).
Proof.
  assert (Hopen : connected (run [Open]) 0 = true) by reflexivity.
  split; [exact Hopen|]. split; [|split].
  - apply (proj1 (dispatch_spec (run [Open]) 0 (envelope_of "dance" None)
                    "dance" [] Hopen eq_refl)). reflexivity.
  - apply (proj1 (proj2 (dispatch_spec (run [Open]) 0
                    (envelope_of "login" (Some "alice")) "login" []
                    Hopen eq_refl)) "alice" eq_refl). reflexivity.
  - apply (proj2 (proj2 (proj2 (dispatch_spec (run [Open]) 0
                    (envelope_of "ready" None) "ready" [] Hopen eq_refl))));
      [reflexivity|discriminate|reflexivity].
Defined.

(** * Further properties of the manager *)

(** ** Leaving *)

(** X1.  [leave] for a name that is not registered does nothing.  From
    the session of [A] towards a registered, open target [B] it sends
    [server_userwanttoleave] to the target and then to the caller, sets
    both statuses to ["online"] and both peer names to [None], leaves
    every other socket, every other status and the registry alone, and
    then broadcasts the snapshot. *)
Theorem leave_spec w A c B :
  (lookup_connection w B = None → leave B c w = (Returned tt, w)) ∧
  (∀ t, session w A c →
     lookup_connection w B = Some t →
     connected w t = true →
     ∃ w', leave B c w = (Returned tt, w') ∧
       peerName w' c = Some None ∧
       peerName w' t = Some None ∧
       status w' A = Some "online" ∧
       status w' B = Some "online" ∧
       (∀ u, u ≠ A → u ≠ B → status w' u = status w u) ∧
       (∀ c', c' ≠ c → c' ≠ t → sockets w' !! c' = sockets w !! c') ∧
       active_connections (manager w') = active_connections (manager w) ∧
       wire w' = wire w ++ [(t, server_userwanttoleave);
                            (c, server_userwanttoleave)] ++ snapshot w').
Proof.
  unfold leave, bind, gets. fold (lookup_connection w B). split.
  - by intros ->.
  - intros t (_ & HcA & Hc) -> Ht.
    unfold setattr_otherName, update_user_status, modify, getattr_name.
    rewrite send_message_run, Ht, send_message_run.
    destruct w as [[reg pres] socks sent]. raw. rewrite Hc. raw.
    rewrite HcA. simpl. rewrite update_users_list_run.
    eexists. split; [done|]. raw. rewrite !peerName_set.
    destruct (socks !! c) as [wc|] eqn:Hwc; [|done].
    destruct (socks !! t) as [wt|] eqn:Hwt; [|done].
    split.
    { rewrite decide_True by done. destruct (decide (t = c)) as [->|E].
      - by rewrite list_lookup_alter_eq, Hwc.
      - by rewrite list_lookup_alter_ne, Hwc. }
    split.
    { case_decide as E.
      - subst. rewrite list_lookup_alter_eq. by rewrite ?Hwc, ?Hwt.
      - by rewrite decide_True. }
    split; [apply DictFacts.get_set_eq|].
    split.
    { rewrite DictFacts.get_set, DictFacts.get_set_eq.
      by destruct (B =? A)%string. }
    split.
    { intros u HA HB. by rewrite !DictFacts.get_set_ne. }
    split.
    { intros c' H1 H2. by rewrite !list_lookup_alter_ne. }
    split; [done|]. by rewrite <- !app_assoc.
Qed.

Lemma leave_spec_witness :
  (lookup_connection paired "carol" = None ∧
   leave "carol" 0 paired = (Returned tt, paired)) ∧
  ∃ w', leave "bob" 0 paired = (Returned tt, w') ∧
    peerName w' 0 = Some None ∧ peerName w' 1 = Some None ∧
    status w' "alice" = Some "online" ∧ status w' "bob" = Some "online".
Proof.
  split.
  - split; [reflexivity|].
    apply (proj1 (leave_spec paired "alice" 0 "carol")). reflexivity.
  - destruct (proj2 (leave_spec paired "alice" 0 "bob") 1 paired_alice
                eq_refl eq_refl)
      as (w' & Hrun & H1 & H2 & H3 & H4 & _).
    exists w'. repeat split; assumption.
Defined.

(** X2.  A [leave] from a connection that never logged in (it has no
    [name]) towards a registered target stops with [AttributeError]
    halfway: both notices have been sent and the target's status is
    already ["online"], but no peer name is cleared, no socket is
    touched, the registry is as before and no snapshot is broadcast. *)
Theorem leave_without_name w c B t :
  userName w c = None →
  lookup_connection w B = Some t →
  ∃ w', leave B c w = (Raised AttributeError, w') ∧
    status w' B = Some "online" ∧
    (∀ u, u ≠ B → status w' u = status w u) ∧
    sockets w' = sockets w ∧
    active_connections (manager w') = active_connections (manager w) ∧
    wire w' = wire w
      ++ (if connected w t then [(t, server_userwanttoleave)] else [])
      ++ (if connected w c then [(c, server_userwanttoleave)] else []).
Proof.
  intros Hc Hl. unfold leave, bind, gets. fold (lookup_connection w B).
  rewrite Hl.
  unfold setattr_otherName, update_user_status, modify, getattr_name.
  rewrite send_message_run.
  destruct w as [[reg pres] socks sent].
  match goal with |- context [connected ?w' t] =>
    change (connected w' t) with (connected (mkWorld (mkConnectionManager reg pres) socks sent) t);
    destruct (connected (mkWorld (mkConnectionManager reg pres) socks sent) t) eqn:Ht
  end;
    rewrite send_message_run;
    match goal with |- context [connected ?w' c] =>
      change (connected w' c) with (connected (mkWorld (mkConnectionManager reg pres) socks sent) c);
      destruct (connected (mkWorld (mkConnectionManager reg pres) socks sent) c) eqn:Hc'
    end;
    raw; rewrite Hc; eexists; (split; [done|]); raw;
    (split; [apply DictFacts.get_set_eq|]);
    (split; [intros u Hu; by apply DictFacts.get_set_ne|]);
    rewrite <- ?app_assoc, ?app_nil_r; done.
Qed.

Lemma leave_without_name_witness :
  userName with_guest 2 = None ∧
  lookup_connection with_guest "bob" = Some 1 ∧
  ∃ w', leave "bob" 2 with_guest = (Raised AttributeError, w') ∧
    status w' "bob" = Some "online" ∧
    peerName w' 1 = Some (Some "alice") ∧
    wire w' = wire with_guest ++ [(1, server_userwanttoleave);
                                  (2, server_userwanttoleave)].
Proof.
  split; [reflexivity|]. split; [reflexivity|].
  destruct (leave_without_name with_guest 2 "bob" 1 eq_refl eq_refl)
    as (w' & Hrun & H1 & _ & H2 & _ & H3).
  exists w'. split; [exact Hrun|]. split; [exact H1|]. split.
  - unfold peerName. rewrite H2. reflexivity.
  - rewrite H3. reflexivity.
Defined.

(** ** Ready from a connection without a name *)

(** X3.  A [ready] from a connection that never logged in, for a
    registered name, stops with [AttributeError] after it has written the
    target's name into the caller's own [otherName]: the manager, the
    other sockets and the wire are as before, and the target is not
    paired. *)
Theorem handle_ready_without_name w c B t :
  userName w c = None →
  lookup_connection w B = Some t →
  ∃ w', handle_ready B c w = (Raised AttributeError, w') ∧
    manager w' = manager w ∧
    wire w' = wire w ∧
    sockets w' = alter (set_otherName (Some B)) c (sockets w) ∧
    (is_Some (sockets w !! c) → peerName w' c = Some (Some B)) ∧
    (∀ c', c' ≠ c → sockets w' !! c' = sockets w !! c').
Proof.
  intros Hc Hl. unfold handle_ready, bind, gets. fold (lookup_connection w B).
  rewrite Hl. unfold setattr_otherName, modify, getattr_name.
  destruct w as [[reg pres] socks sent]. raw.
  rewrite userName_alter by done. rewrite Hc.
  eexists. split; [done|]. simpl. do 3 (split; [done|]). split.
  - intros [ws Hws]. by rewrite list_lookup_alter_eq, Hws.
  - intros c' Hne. by rewrite list_lookup_alter_ne.
Qed.

Lemma handle_ready_without_name_witness :
  userName with_guest 2 = None ∧
  lookup_connection with_guest "bob" = Some 1 ∧
  ∃ w', handle_ready "bob" 2 with_guest = (Raised AttributeError, w') ∧
    peerName w' 2 = Some (Some "bob") ∧
    peerName w' 1 = Some (Some "alice") ∧
    wire w' = wire with_guest.
Proof.
  split; [reflexivity|]. split; [reflexivity|].
  destruct (handle_ready_without_name with_guest 2 "bob" 1 eq_refl eq_refl)
    as (w' & Hrun & _ & H1 & H2 & H3 & H4).
  exists w'. split; [exact Hrun|]. split; [|split].
  - apply H3. eexists. reflexivity.
  - unfold peerName. rewrite H4 by discriminate. reflexivity.
  - exact H1.
Defined.

(** ** Answer and busy *)

(** X4.  An answer is relayed to the named target whenever it is
    registered and its transport is open, whether or not anyone is
    paired, and without the sender's name; otherwise nothing is sent and
    nothing changes. *)
Theorem send_answer_spec w toName answer :
  (∀ t, lookup_connection w toName = Some t →
     connected w t = true →
     send_answer toName answer w =
       (Returned tt, send_json t (server_answer answer) w)) ∧
  (¬ (∃ t, lookup_connection w toName = Some t ∧ connected w t = true) →
     send_answer toName answer w = (Returned tt, w)).
Proof.
  unfold send_answer, bind, gets. fold (lookup_connection w toName). split.
  - intros t -> Ht. by rewrite send_message_run, Ht.
  - intros Hno. destruct (lookup_connection w toName) as [t|]; [|done].
    rewrite send_message_run. destruct (connected w t) eqn:Ht; [|done].
    destruct Hno. eauto.
Qed.

Lemma send_answer_spec_witness :
  send_answer "bob" (JStr "sdp") two_users =
    (Returned tt, send_json 1 (server_answer (JStr "sdp")) two_users) ∧
  send_answer "carol" (JStr "sdp") two_users = (Returned tt, two_users).
Proof.
  split.
  - apply (proj1 (send_answer_spec two_users "bob" (JStr "sdp")) 1);
      reflexivity.
  - apply (proj2 (send_answer_spec two_users "carol" (JStr "sdp"))).
    intros (t & Hl & _). vm_compute in Hl. discriminate.
Defined.

(** X5.  The busy notice goes to the named target when it is registered
    and open and changes no status; otherwise nothing is sent and nothing
    changes. *)
Theorem busy_spec w toName :
  (∀ t, lookup_connection w toName = Some t →
     connected w t = true →
     busy toName w = (Returned tt, send_json t server_busyuser w)) ∧
  (¬ (∃ t, lookup_connection w toName = Some t ∧ connected w t = true) →
     busy toName w = (Returned tt, w)).
Proof.
  unfold busy, bind, gets. fold (lookup_connection w toName). split.
  - intros t -> Ht. by rewrite send_message_run, Ht.
  - intros Hno. destruct (lookup_connection w toName) as [t|]; [|done].
    rewrite send_message_run. destruct (connected w t) eqn:Ht; [|done].
    destruct Hno. eauto.
Qed.

Lemma busy_spec_witness :
  busy "bob" two_users = (Returned tt, send_json 1 server_busyuser two_users) ∧
  busy "carol" two_users = (Returned tt, two_users).
Proof.
  split.
  - apply (proj1 (busy_spec two_users "bob") 1); reflexivity.
  - apply (proj2 (busy_spec two_users "carol")).
    intros (t & Hl & _). vm_compute in Hl. discriminate.
Defined.

(** ** Order in a dict *)
Module DictOrder.
Section DictOrder.
Context {V : Type}.
Implicit Types (d : list (string * V)) (k : string) (v : V).
Import Dict.

Lemma set_present_keys k v d : is_Some (get k d) → (set k v d).*1 = d.*1.
Proof.
  induction d as [|[k' v'] d IH]; simpl.
  - by intros [? ?].
  - destruct (String.eqb k k') eqn:E; simpl; [done|].
    intros H. f_equal. by apply IH.
Qed.

Lemma set_absent k v d : get k d = None → set k v d = d ++ [(k, v)].
Proof.
  induction d as [|[k' v'] d IH]; simpl; [done|].
  destruct (String.eqb k k'); [done|]. intros H. by rewrite IH.
Qed.

Lemma pop_app k d1 d2 : pop k (d1 ++ d2) = pop k d1 ++ pop k d2.
Proof.
  induction d1 as [|[k' v'] d1 IH]; simpl; [done|].
  destruct (String.eqb k k'); simpl; by rewrite IH.
Qed.

Lemma pop_set_absent k v d : get k d = None → pop k (set k v d) = d.
Proof.
  intros H. rewrite (set_absent _ _ _ H), pop_app, (DictFacts.pop_absent _ _ H).
  simpl. rewrite String.eqb_refl. apply app_nil_r.
Qed.

Lemma get_Some_values k d v : get k d = Some v → v ∈ values d.
Proof.
  unfold values. induction d as [|[k' v'] d IH]; simpl; [done|].
  destruct (String.eqb k k').
  - intros [= ->]. left.
  - intros H. right. auto.
Qed.

Lemma set_items k v d : (k, v) ∈ set k v d.
Proof.
  induction d as [|[k' v'] d IH]; simpl.
  - left.
  - destruct (String.eqb k k') eqn:E.
    + apply String.eqb_eq in E. subst. left.
    + right. done.
Qed.
End DictOrder.
End DictOrder.

(** ** The presence map *)

(** X6.  A status written with [update_user_status] is the one
    [get_user_status] reads back, the status of every other name is
    untouched, a name that was already present keeps its place in the
    order of the map, and a new name goes last. *)
Theorem update_user_status_get w u s :
  get_user_status u (update_user_status u s w).2 =
    (Returned (Some s), (update_user_status u s w).2) ∧
  (∀ v, v ≠ u →
     get_user_status v (update_user_status u s w).2 =
       (Returned (status w v), (update_user_status u s w).2)) ∧
  (is_Some (status w u) →
     (online_users (manager (update_user_status u s w).2)).*1 =
     (online_users (manager w)).*1) ∧
  (status w u = None →
     online_users (manager (update_user_status u s w).2) =
     online_users (manager w) ++ [(u, s)]).
Proof.
  unfold get_user_status, update_user_status, gets, modify, status.
  destruct w as [[reg pres] socks sent]. raw.
  split; [by rewrite DictFacts.get_set_eq|].
  split; [intros v Hv; by rewrite DictFacts.get_set_ne|].
  split; [apply DictOrder.set_present_keys|apply DictOrder.set_absent].
Qed.

Lemma update_user_status_get_witness :
  (online_users (manager (update_user_status "alice" "busy" two_users).2)).*1 =
    ["alice"; "bob"] ∧
  online_users (manager (update_user_status "carol" "busy" two_users).2) =
    [("alice", "online"); ("bob", "online"); ("carol", "busy")].
Proof.
  split.
  - apply (proj1 (proj2 (proj2
             (update_user_status_get two_users "alice" "busy")))).
    eexists. reflexivity.
  - apply (proj2 (proj2 (proj2
             (update_user_status_get two_users "carol" "busy")))).
    reflexivity.
Defined.

(** ** Broadcasting *)

Lemma recipients_tagged {A B} (b : B) (l : list A) :
  ((λ c, (c, b)) <$> l).*1 = l.
Proof. induction l as [|x l IH]; simpl; [done|]. by f_equal. Qed.

(** X7.  [broadcast] changes neither the manager nor a socket, and all
    it puts on the wire is the given message for connections that are in
    the registry with a [CONNECTED] socket, in the order of the registry;
    nothing goes to a connection that is closed or not registered. *)
Theorem broadcast_only_to_open_registered msg w :
  manager (broadcast msg w).2 = manager w ∧
  sockets (broadcast msg w).2 = sockets w ∧
  ∃ extra,
    wire (broadcast msg w).2 = wire w ++ extra ∧
    extra.*1 `sublist_of` Dict.values (active_connections (manager w)) ∧
    ∀ c m, (c, m) ∈ extra → m = msg ∧ connected w c = true.
Proof.
  unfold broadcast, bind, gets. rewrite send_each_run.
  destruct w as [[reg pres] socks sent]. unfold with_wire. simpl.
  do 2 (split; [done|]). eexists. split; [done|]. split.
  - rewrite recipients_tagged. apply sublist_filter.
  - intros c m (c' & [= -> ->] & Hin)%list_elem_of_fmap.
    apply list_elem_of_filter in Hin as [Hopen _]. done.
Qed.

(** ** What every operation keeps *)

Section Keeps.
Variable R : World → World → Prop.
Hypothesis R_refl : ∀ w, R w w.
Hypothesis R_trans : ∀ w1 w2 w3, R w1 w2 → R w2 w3 → R w1 w3.
Hypothesis R_send : ∀ c msg, keeps R (send_message c msg).
Hypothesis R_otherName : ∀ c v, keeps R (setattr_otherName c v).
Hypothesis R_status :
  ∀ u s, s = "online" ∨ s = "busy" → keeps R (update_user_status u s).
Hypothesis R_unregister :
  ∀ me, keeps R (modify (with_active_connections (Dict.pop me))).
Hypothesis R_forget :
  ∀ u, keeps R (modify (with_online_users (Dict.pop u))).

Lemma keeps_ret {A} (a : A) : keeps R (ret a).
Proof. intros w. apply R_refl. Qed.

Lemma keeps_raise {A} e : keeps R (@raise A e).
Proof. intros w. apply R_refl. Qed.

Lemma keeps_gets {A} (f : World → A) : keeps R (gets f).
Proof. intros w. apply R_refl. Qed.

Lemma keeps_bind {A B} (m : Py A) (k : A → Py B) :
  keeps R m → (∀ a, keeps R (k a)) → keeps R (bind m k).
Proof.
  intros Hm Hk w. unfold bind. specialize (Hm w).
  destruct (m w) as [[a|e] w1]; simpl in *; [|done].
  eapply R_trans; [done|]. apply Hk.
Qed.

Lemma keeps_getattr_name c : keeps R (getattr_name c).
Proof. intros w. unfold getattr_name. destruct (userName w c); apply R_refl. Qed.

Lemma keeps_getattr_otherName c : keeps R (getattr_otherName c).
Proof.
  intros w. unfold getattr_otherName. destruct (peerName w c); apply R_refl.
Qed.

Lemma keeps_subscript {A} (field : option A) : keeps R (subscript field).
Proof. destruct field; [apply keeps_ret|apply keeps_raise]. Qed.

Lemma keeps_send_each cs msg : keeps R (send_each cs msg).
Proof.
  induction cs as [|c cs IH]; simpl; [apply keeps_ret|].
  apply keeps_bind; [apply R_send|by intros _].
Qed.

Ltac keeps_step :=
  first
    [ apply keeps_ret | apply keeps_raise | apply keeps_gets
    | apply R_send | apply R_otherName | apply R_unregister | apply R_forget
    | apply R_status; by auto
    | apply keeps_send_each
    | apply keeps_getattr_name | apply keeps_getattr_otherName
    | apply keeps_subscript
    | apply keeps_bind; [|intros ?]
    | match goal with
      | |- keeps R (match ?x with _ => _ end) => destruct x
      end ].

Lemma keeps_update_users_list : keeps R update_users_list.
Proof. unfold update_users_list, broadcast. repeat keeps_step. Qed.

Lemma keeps_send_offer u offer c : keeps R (send_offer u offer c).
Proof. unfold send_offer. repeat keeps_step. Qed.

Lemma keeps_send_answer u answer : keeps R (send_answer u answer).
Proof. unfold send_answer. repeat keeps_step. Qed.

Lemma keeps_send_candidate_request u candidate :
  keeps R (send_candidate_request u candidate).
Proof. unfold send_candidate_request. repeat keeps_step. Qed.

Lemma keeps_busy u : keeps R (busy u).
Proof. unfold busy. repeat keeps_step. Qed.

Lemma keeps_want_to_call u c : keeps R (want_to_call u c).
Proof. unfold want_to_call, get_user_status. repeat keeps_step. Qed.

Lemma keeps_leave u c : keeps R (leave u c).
Proof.
  unfold leave.
  repeat first [apply keeps_update_users_list | keeps_step].
Qed.

Lemma keeps_handle_ready u c : keeps R (handle_ready u c).
Proof.
  unfold handle_ready.
  repeat first [apply keeps_update_users_list | keeps_step].
Qed.

Lemma keeps_handle_quit u c : keeps R (handle_quit u c).
Proof.
  unfold handle_quit.
  repeat first [apply keeps_update_users_list | keeps_step].
Qed.

(** The endpoint's cases, given what a login from an open connection
    does. *)
Lemma keeps_dispatch data c w :
  (∀ N, R w (login_user N c w).2) →
  R w (dispatch data c w).2.
Proof.
  intros Hlogin. unfold dispatch.
  destruct (e_type data) as [[| | |a_type| |]|]; try apply R_refl.
  destruct (String.eqb a_type "login").
  { unfold bind. destruct (e_name data) as [N|]; [apply Hlogin|apply R_refl]. }
  clear Hlogin.
  match goal with
  | |- R ?w0 (?m ?w0).2 => revert w0; change (keeps R m)
  end.
  repeat first
    [ apply keeps_send_offer | apply keeps_send_answer
    | apply keeps_send_candidate_request | apply keeps_leave
    | apply keeps_busy | apply keeps_want_to_call
    | apply keeps_handle_ready | apply keeps_handle_quit
    | keeps_step ].
Qed.
End Keeps.

(** ** Closed sockets *)

Lemma calm_refl w : calm w w.
Proof.
  split; [done|]. exists []. split; [by rewrite app_nil_r|].
  intros c msg H. by apply elem_of_nil in H.
Qed.

Lemma calm_trans w1 w2 w3 : calm w1 w2 → calm w2 w3 → calm w1 w3.
Proof.
  intros [H1 (e1 & He1 & Hn1)] [H2 (e2 & He2 & Hn2)]. split; [auto|].
  exists (e1 ++ e2). split; [by rewrite He2, He1, app_assoc|].
  intros c msg [H|H]%elem_of_app; [eauto|].
  intros Hc. by apply (Hn2 _ _ H), H1.
Qed.

(** A change that leaves the wire and every [client_state] alone. *)
Lemma calm_quiet w w' :
  wire w' = wire w →
  length (sockets w') = length (sockets w) →
  (∀ c, connected w' c = connected w c) →
  calm w w'.
Proof.
  intros Hw Hl Hc. split.
  - intros c [H1 H2]. split; [by rewrite Hl|by rewrite Hc].
  - exists []. split; [by rewrite Hw, app_nil_r|].
    intros c msg H. by apply elem_of_nil in H.
Qed.

Lemma calm_alter w f c :
  (∀ ws, client_state (f ws) = client_state ws) →
  calm w (with_sockets (alter f c) w).
Proof.
  intros Hf. apply calm_quiet; [done|apply length_alter|].
  intros c'. unfold connected. simpl. by apply connected_alter.
Qed.

Lemma calm_send c msg : keeps calm (send_message c msg).
Proof.
  intros w. rewrite send_message_run.
  destruct (connected w c) eqn:Hc; [|apply calm_refl]. split; [done|].
  exists [(c, msg)]. split; [done|].
  intros c' msg' [= -> ->]%list_elem_of_singleton [_ H]. congruence.
Qed.

Lemma calm_otherName c v : keeps calm (setattr_otherName c v).
Proof. intros w. by apply calm_alter. Qed.

Lemma calm_name c v : keeps calm (setattr_name c v).
Proof. intros w. by apply calm_alter. Qed.

Lemma calm_status u s : keeps calm (update_user_status u s).
Proof. intros w. by apply calm_quiet. Qed.

Lemma calm_registry f : keeps calm (modify (with_active_connections f)).
Proof. intros w. by apply calm_quiet. Qed.

Lemma calm_presence f : keeps calm (modify (with_online_users f)).
Proof. intros w. by apply calm_quiet. Qed.

Lemma calm_update_users_list : keeps calm update_users_list.
Proof.
  apply keeps_update_users_list;
    [apply calm_refl|apply calm_trans|apply calm_send].
Qed.

Lemma calm_login_user N c : keeps calm (login_user N c).
Proof.
  unfold login_user, register_user_connection.
  repeat first
    [ apply calm_send | apply calm_otherName | apply calm_name
    | apply calm_status | apply calm_registry | apply calm_update_users_list
    | apply keeps_gets; apply calm_refl
    | apply keeps_bind; [apply calm_trans| |intros ?]
    | match goal with
      | |- keeps calm (match ?x with _ => _ end) => destruct x
      end ].
Qed.

Lemma calm_dispatch data c : keeps calm (dispatch data c).
Proof.
  intros w. apply keeps_dispatch;
    first [ apply calm_refl | apply calm_trans | apply calm_send
          | apply calm_otherName | intros; apply calm_status
          | intros; apply calm_registry | intros; apply calm_presence
          | intros; apply calm_login_user ].
Qed.

Lemma calm_step a w : calm w (step a w).
Proof.
  destruct a as [|c [data|]]; unfold step.
  - unfold connect, modify. split.
    + intros c [H1 H2]. unfold closed, connected in *. simpl.
      rewrite length_alter, length_app. split; [lia|].
      rewrite list_lookup_alter_ne by lia. by rewrite lookup_app_l.
    + exists []. split; [by rewrite app_nil_r|].
      intros c msg H. by apply elem_of_nil in H.
  - destruct (connected w c); [apply calm_dispatch|apply calm_refl].
  - destruct (connected w c) eqn:Hc; [|apply calm_refl].
    unfold receive. rewrite on_disconnect_run. split.
    + intros c' [H1 H2]. unfold closed, connected in *. simpl.
      rewrite length_alter. split; [done|].
      destruct (decide (c = c')) as [->|Hne].
      * rewrite list_lookup_alter_eq. by destruct (sockets w !! c').
      * by rewrite list_lookup_alter_ne.
    + exists []. split; [by rewrite app_nil_r|].
      intros c' msg H. by apply elem_of_nil in H.
Qed.

Lemma calm_steps actions w : calm w (foldl (λ w a, step a w) w actions).
Proof.
  revert w. induction actions as [|a actions IH]; intros w; simpl.
  - apply calm_refl.
  - eapply calm_trans; [apply calm_step|apply IH].
Qed.

(** X8.  Whatever happens next, a socket that exists and is not
    [CONNECTED] is never connected again and never gets a message: the
    wire only grows, and nothing added to it is for that socket. *)
Theorem closed_socket_gets_nothing w actions c :
  closed w c →
  closed (foldl (λ w a, step a w) w actions) c ∧
  ∃ extra,
    wire (foldl (λ w a, step a w) w actions) = wire w ++ extra ∧
    ∀ msg, (c, msg) ∉ extra.
Proof.
  intros Hc. destruct (calm_steps actions w) as [H (extra & He & Hn)].
  split; [auto|]. exists extra. split; [done|].
  intros msg Hin. by apply (Hn _ _ Hin).
Qed.

Lemma bob_gone_closed : closed bob_gone 1.
Proof. split; [vm_compute; constructor|reflexivity]. Defined.

Lemma closed_socket_gets_nothing_witness :
  closed bob_gone 1 ∧
  closed (foldl (λ w a, step a w) bob_gone
            [Receive 0 (ready_for "bob"); Receive 0 (quit_as "alice")]) 1.
Proof.
  split; [apply bob_gone_closed|].
  apply (closed_socket_gets_nothing bob_gone
           [Receive 0 (ready_for "bob"); Receive 0 (quit_as "alice")] 1
           bob_gone_closed).
Defined.

(** ** Attributes of registered connections *)

Lemma settles_refl w : settles w w.
Proof. split; [auto|]. split; auto. Qed.

Lemma settles_trans w1 w2 w3 : settles w1 w2 → settles w2 w3 → settles w1 w3.
Proof.
  intros (A1 & B1 & C1) (A2 & B2 & C2). split; [|split; auto].
  intros u c H. destruct (A2 _ _ H) as [H'|H']; [|by right].
  destruct (A1 _ _ H') as [H''|[Hn Hp]]; [by left|].
  right. split; auto.
Qed.

Lemma settles_attributes w w' :
  attributes_set w → settles w w' → attributes_set w'.
Proof.
  intros Hw (A & B & C) u c H. destruct (A _ _ H) as [H'|H']; [|done].
  destruct (Hw _ _ H') as [Hn Hp]. split; auto.
Qed.

(** A change of the manager that adds no registry entry. *)
Lemma settles_manager w w' :
  sockets w' = sockets w →
  (∀ u c, lookup_connection w' u = Some c → lookup_connection w u = Some c) →
  settles w w'.
Proof.
  intros Hs Hl. unfold settles, userName, peerName. rewrite Hs.
  split; [auto|]. split; auto.
Qed.

Lemma settles_send c msg : keeps settles (send_message c msg).
Proof.
  intros w. rewrite send_message_run.
  destruct (connected w c); [|apply settles_refl]. by apply settles_manager.
Qed.

Lemma settles_otherName c v : keeps settles (setattr_otherName c v).
Proof.
  intros w. unfold setattr_otherName, modify. split; [auto|]. split.
  - intros c'. unfold userName. simpl. by rewrite userName_alter.
  - intros c'. unfold peerName. simpl. rewrite peerName_set.
    case_decide; [|done]. subst. intros H.
    destruct (sockets w !! c'); [by eexists|]. by destruct H.
Qed.

Lemma settles_status u s : keeps settles (update_user_status u s).
Proof. intros w. by apply settles_manager. Qed.

Lemma settles_unregister me :
  keeps settles (modify (with_active_connections (Dict.pop me))).
Proof.
  intros w. apply settles_manager; [done|].
  intros u c. apply DictFacts.get_pop_Some.
Qed.

Lemma settles_forget u :
  keeps settles (modify (with_online_users (Dict.pop u))).
Proof. intros w. by apply settles_manager. Qed.

Lemma settles_login_user N c w :
  connected w c = true → settles w (login_user N c w).2.
Proof.
  intros Hopen. destruct (lookup_connection w N) as [c0|] eqn:Hl.
  - destruct (login_user_taken w N c) as [Hm Hs]; [by rewrite Hl|].
    apply settles_manager; [done|].
    unfold lookup_connection. by rewrite Hm.
  - destruct (login_user_core w N c Hl) as [Hm Hs].
    destruct (connected_exists _ _ Hopen) as [ws Hws].
    unfold settles, has_attributes, lookup_connection, userName, peerName.
    rewrite Hm, Hs. simpl. split; [|split].
    + intros u c'. rewrite DictFacts.get_set.
      destruct (String.eqb u N); [|by left]. intros [= <-]. right.
      rewrite !list_lookup_alter_eq, Hws. simpl. split; by eexists.
    + intros c'. destruct (decide (c = c')) as [->|Hne].
      * rewrite !list_lookup_alter_eq, Hws. simpl. by eexists.
      * by rewrite !list_lookup_alter_ne.
    + intros c'. destruct (decide (c = c')) as [->|Hne].
      * rewrite !list_lookup_alter_eq, Hws. simpl. by eexists.
      * by rewrite !list_lookup_alter_ne.
Qed.

Lemma settles_dispatch data c w :
  connected w c = true → settles w (dispatch data c w).2.
Proof.
  intros Hopen. apply keeps_dispatch;
    first [ apply settles_refl | apply settles_trans | apply settles_send
          | apply settles_otherName | intros; apply settles_status
          | intros; apply settles_unregister | intros; apply settles_forget
          | intros; by apply settles_login_user ].
Qed.

Lemma settles_step a w : settles w (step a w).
Proof.
  destruct a as [|c [data|]]; unfold step.
  - unfold connect, modify. unfold settles, has_attributes, userName, peerName.
    simpl. split; [auto|]. split.
    + intros c [n Hn]. destruct (sockets w !! c) as [ws|] eqn:Hws; [|done].
      assert (c < length (sockets w)) by (by eapply lookup_lt_Some).
      rewrite list_lookup_alter_ne by lia.
      rewrite (lookup_app_l_Some _ _ _ _ Hws). by eexists.
    + intros c [n Hn]. destruct (sockets w !! c) as [ws|] eqn:Hws; [|done].
      assert (c < length (sockets w)) by (by eapply lookup_lt_Some).
      rewrite list_lookup_alter_ne by lia.
      rewrite (lookup_app_l_Some _ _ _ _ Hws). by eexists.
  - destruct (connected w c) eqn:Hc; [|apply settles_refl].
    by apply settles_dispatch.
  - destruct (connected w c) eqn:Hc; [|apply settles_refl].
    unfold receive. rewrite on_disconnect_run.
    unfold settles, has_attributes, userName, peerName. simpl.
    split; [auto|]. split; intros c'.
    + by rewrite userName_alter.
    + destruct (decide (c = c')) as [->|Hne].
      * rewrite list_lookup_alter_eq. by destruct (sockets w !! c').
      * by rewrite list_lookup_alter_ne.
Qed.

Lemma attributes_steps actions w :
  attributes_set w → attributes_set (foldl (λ w a, step a w) w actions).
Proof.
  revert w. induction actions as [|a actions IH]; intros w Hw; [done|].
  simpl. apply IH. eapply settles_attributes; [done|apply settles_step].
Qed.

Lemma attributes_run actions : attributes_set (run actions).
Proof. apply attributes_steps. intros u c H. done. Qed.

(** X9.  In every state the server can reach, by any messages from any
    connections, each registered connection has a [name] and an
    [otherName] attribute, so reading either one of a registered
    connection does not raise. *)
Theorem registered_have_attributes actions username connection :
  lookup_connection (run actions) username = Some connection →
  ∃ n other,
    getattr_name connection (run actions) = (Returned n, run actions) ∧
    getattr_otherName connection (run actions) =
      (Returned other, run actions).
Proof.
  intros H. destruct (attributes_run actions _ _ H) as [[n Hn] [o Ho]].
  exists n, o. unfold getattr_name, getattr_otherName. by rewrite Hn, Ho.
Qed.

Lemma registered_have_attributes_witness :
  lookup_connection
    (run [Open; Receive 0 (login_as "alice"); Receive 0 (login_as "carol")])
    "alice" = Some 0 ∧
  ∃ n other,
    getattr_name 0
      (run [Open; Receive 0 (login_as "alice"); Receive 0 (login_as "carol")]) =
      (Returned n,
       run [Open; Receive 0 (login_as "alice"); Receive 0 (login_as "carol")]) ∧
    getattr_otherName 0
      (run [Open; Receive 0 (login_as "alice"); Receive 0 (login_as "carol")]) =
      (Returned other,
       run [Open; Receive 0 (login_as "alice"); Receive 0 (login_as "carol")]).
Proof.
  split; [reflexivity|].
  apply (registered_have_attributes
           [Open; Receive 0 (login_as "alice"); Receive 0 (login_as "carol")]
           "alice" 0).
  reflexivity.
Defined.

(** ** Callers with a name *)

Section Succeeds.
Variables caller target : nat.
Abbreviation Q := (readable caller target).

Lemma readable_settles w w' : settles w w' → Q w → Q w'.
Proof.
  intros (_ & B & C) [Hc [Hn Hp]]. split; [auto|]. split; auto.
Qed.

Lemma succeeds_bind {A B} (m : Py A) (k : A → Py B) :
  keeps settles m → succeeds Q m → (∀ a, succeeds Q (k a)) →
  succeeds Q (bind m k).
Proof.
  intros Hk Hm Hrest w HQ. unfold bind.
  destruct (Hm w HQ) as [a Ha]. specialize (Hk w).
  destruct (m w) as [[a'|e] w1]; simpl in *; [|done].
  apply Hrest. by apply (readable_settles w).
Qed.

Lemma succeeds_pure {A} (m : Py A) :
  (∀ w, ∃ a, (m w).1 = Returned a) → succeeds Q m.
Proof. intros H w _. apply H. Qed.

Lemma succeeds_send c msg : succeeds Q (send_message c msg).
Proof.
  apply succeeds_pure. intros w. rewrite send_message_run. by exists tt.
Qed.

Lemma succeeds_update_users_list : succeeds Q update_users_list.
Proof.
  apply succeeds_pure. intros w. rewrite update_users_list_run. by exists tt.
Qed.

Lemma succeeds_caller_name : succeeds Q (getattr_name caller).
Proof.
  intros w [[n Hn] _]. exists n. unfold getattr_name. by rewrite Hn.
Qed.

Lemma succeeds_target_name : succeeds Q (getattr_name target).
Proof.
  intros w [_ [[n Hn] _]]. exists n. unfold getattr_name. by rewrite Hn.
Qed.

Lemma succeeds_target_otherName : succeeds Q (getattr_otherName target).
Proof.
  intros w [_ [_ [o Ho]]]. exists o. unfold getattr_otherName. by rewrite Ho.
Qed.

Ltac succeeds_step :=
  first
    [ apply succeeds_send | apply succeeds_update_users_list
    | apply succeeds_caller_name | apply succeeds_target_name
    | apply succeeds_target_otherName
    | apply succeeds_pure; intros ?; by eexists
    | apply succeeds_bind;
        [ first [ apply settles_send | apply settles_otherName
                | apply settles_status
                | apply keeps_getattr_name; apply settles_refl
                | apply keeps_getattr_otherName; apply settles_refl
                | apply keeps_gets; apply settles_refl
                | apply keeps_bind;
                    [ apply settles_trans
                    | apply keeps_gets; apply settles_refl
                    | intros ?; apply keeps_ret; apply settles_refl ]
                | match goal with
                  | |- keeps settles (match ?x with _ => _ end) =>
                      destruct x;
                      repeat first
                        [ apply keeps_ret; apply settles_refl
                        | apply keeps_bind;
                            [ apply settles_trans
                            | apply keeps_gets; apply settles_refl
                            | intros ?; apply keeps_ret; apply settles_refl ] ]
                  end ]
        | | intros ? ]
    | match goal with
      | |- succeeds Q (match ?x with _ => _ end) => destruct x
      end ].

Lemma succeeds_offer_found u offer :
  succeeds Q
    (let! other := getattr_otherName target in
     match other with
     | None =>
         let! sender := getattr_name caller in
         send_message target (server_offer offer sender)
     | Some _ => send_message caller (server_alreadyinroom true u)
     end).
Proof. repeat succeeds_step. Qed.

Lemma succeeds_candidate_found candidate :
  succeeds Q
    (let! other := getattr_otherName target in
     match other with
     | None => ret tt
     | Some _ => send_message target (server_candidate candidate)
     end).
Proof. repeat succeeds_step. Qed.

Lemma succeeds_want_to_call_found u :
  succeeds Q
    (let! other := getattr_otherName target in
     let! in_room :=
       match other with
       | None => ret false
       | Some _ =>
           let! status := get_user_status u in
           ret (bool_decide (status = Some "busy"))
       end in
     if in_room
     then send_message caller (server_alreadyinroom true u)
     else send_message caller (server_alreadyinroom false u)).
Proof. unfold get_user_status. repeat succeeds_step. Qed.

Lemma succeeds_leave_found u :
  succeeds Q
    (do! send_message target server_userwanttoleave in
     do! send_message caller server_userwanttoleave in
     do! update_user_status u "online" in
     let! me := getattr_name caller in
     do! update_user_status me "online" in
     do! setattr_otherName target None in
     do! setattr_otherName caller None in
     update_users_list).
Proof. repeat succeeds_step. Qed.

Lemma succeeds_ready_found u :
  succeeds Q
    (do! setattr_otherName caller (Some u) in
     let! me := getattr_name caller in
     do! setattr_otherName target (Some me) in
     do! update_user_status u "busy" in
     let! me := getattr_name caller in
     do! update_user_status me "busy" in
     let! me := getattr_name caller in
     do! send_message target (server_userready true me) in
     let! peer := getattr_name target in
     do! send_message caller (server_userready true peer) in
     update_users_list).
Proof. repeat succeeds_step. Qed.
End Succeeds.

Lemma bind_gets {A B} (f : World → A) (k : A → Py B) w :
  bind (gets f) k w = k (f w) w.
Proof. done. Qed.

Lemma login_user_returns N c w : (login_user N c w).1 = Returned tt.
Proof.
  unfold login_user. rewrite bind_gets.
  destruct (Dict.mem N (active_connections (manager w))).
  - by rewrite send_message_run.
  - unfold register_user_connection, update_user_status, setattr_name,
      setattr_otherName, bind, modify.
    rewrite send_message_run.
    match goal with |- context [connected ?w' c] => destruct (connected w' c) end;
      by rewrite update_users_list_run.
Qed.

Lemma send_answer_returns u answer w : (send_answer u answer w).1 = Returned tt.
Proof.
  unfold send_answer. rewrite bind_gets.
  destruct (Dict.get u _); [by rewrite send_message_run|done].
Qed.

Lemma busy_returns u w : (busy u w).1 = Returned tt.
Proof.
  unfold busy. rewrite bind_gets.
  destruct (Dict.get u _); [by rewrite send_message_run|done].
Qed.

Lemma handle_quit_returns u c w :
  is_Some (userName w c) → (handle_quit u c w).1 = Returned tt.
Proof. intros [me Hme]. by rewrite (handle_quit_run _ _ _ _ Hme). Qed.

Section Returns.
Variables (w : World) (c : nat) (u : string).
Hypothesis Hw : attributes_set w.
Hypothesis Hc : is_Some (userName w c).

Lemma found_readable t : lookup_connection w u = Some t → readable c t w.
Proof. intros Hl. split; [done|]. by apply (Hw u). Qed.

Lemma send_offer_returns offer : (send_offer u offer c w).1 = Returned tt.
Proof.
  unfold send_offer. rewrite bind_gets. fold (lookup_connection w u).
  destruct (lookup_connection w u) as [t|] eqn:Hl.
  - destruct (succeeds_offer_found c t u offer w (found_readable t Hl))
      as [[] H]. exact H.
  - by rewrite send_message_run.
Qed.

Lemma send_candidate_request_returns candidate :
  (send_candidate_request u candidate w).1 = Returned tt.
Proof.
  unfold send_candidate_request. rewrite bind_gets.
  fold (lookup_connection w u).
  destruct (lookup_connection w u) as [t|] eqn:Hl; [|done].
  destruct (succeeds_candidate_found c t candidate w (found_readable t Hl))
    as [[] H]. exact H.
Qed.

Lemma want_to_call_returns : (want_to_call u c w).1 = Returned tt.
Proof.
  unfold want_to_call. rewrite bind_gets. fold (lookup_connection w u).
  destruct (lookup_connection w u) as [t|] eqn:Hl.
  - destruct (succeeds_want_to_call_found c t u w (found_readable t Hl))
      as [[] H]. exact H.
  - by rewrite send_message_run.
Qed.

Lemma leave_returns : (leave u c w).1 = Returned tt.
Proof.
  unfold leave. rewrite bind_gets. fold (lookup_connection w u).
  destruct (lookup_connection w u) as [t|] eqn:Hl; [|done].
  destruct (succeeds_leave_found c t u w (found_readable t Hl)) as [[] H].
  exact H.
Qed.

Lemma handle_ready_returns : (handle_ready u c w).1 = Returned tt.
Proof.
  unfold handle_ready. rewrite bind_gets. fold (lookup_connection w u).
  destruct (lookup_connection w u) as [t|] eqn:Hl; [|done].
  destruct (succeeds_ready_found c t u w (found_readable t Hl)) as [[] H].
  exact H.
Qed.
End Returns.

(** X10.  In every state the server can reach, no method of the manager
    raises [AttributeError] when it is called, with a string for the
    username, for a connection that has a [name] (one that has logged in
    at some time): each read of [connection.name], [conn.name] and
    [conn.otherName] finds the attribute. *)
Theorem named_caller_no_AttributeError actions c u :
  is_Some (userName (run actions) c) →
  (login_user u c (run actions)).1 ≠ Raised AttributeError ∧
  (∀ offer, (send_offer u offer c (run actions)).1 ≠ Raised AttributeError) ∧
  (∀ answer, (send_answer u answer (run actions)).1 ≠ Raised AttributeError) ∧
  (∀ candidate,
     (send_candidate_request u candidate (run actions)).1
       ≠ Raised AttributeError) ∧
  (leave u c (run actions)).1 ≠ Raised AttributeError ∧
  (busy u (run actions)).1 ≠ Raised AttributeError ∧
  (want_to_call u c (run actions)).1 ≠ Raised AttributeError ∧
  (handle_ready u c (run actions)).1 ≠ Raised AttributeError ∧
  (handle_quit u c (run actions)).1 ≠ Raised AttributeError.
Proof.
  intros Hc. pose proof (attributes_run actions) as Hw.
  split; [by rewrite login_user_returns|].
  split; [intros offer; by rewrite send_offer_returns|].
  split; [intros answer; by rewrite send_answer_returns|].
  split; [intros candidate;
          by rewrite (send_candidate_request_returns _ c)|].
  split; [by rewrite leave_returns|].
  split; [by rewrite busy_returns|].
  split; [by rewrite want_to_call_returns|].
  split; [by rewrite handle_ready_returns|].
  by rewrite handle_quit_returns.
Qed.

Lemma named_caller_no_AttributeError_witness :
  is_Some (userName
             (run [Open; Open; Receive 0 (login_as "alice");
                   Receive 1 (login_as "bob"); Receive 0 (quit_as "alice")]) 0) ∧
  (handle_ready "bob" 0
     (run [Open; Open; Receive 0 (login_as "alice");
           Receive 1 (login_as "bob"); Receive 0 (quit_as "alice")])).1
    ≠ Raised AttributeError.
Proof.
  assert (Hn : is_Some (userName
             (run [Open; Open; Receive 0 (login_as "alice");
                   Receive 1 (login_as "bob"); Receive 0 (quit_as "alice")]) 0))
    by (exists "alice"; reflexivity).
  split; [exact Hn|].
  apply (named_caller_no_AttributeError
           [Open; Open; Receive 0 (login_as "alice");
            Receive 1 (login_as "bob"); Receive 0 (quit_as "alice")]
           0 "bob" Hn).
Defined.

(** ** Presence statuses *)

Lemma keeps_statuses_refl w : keeps_statuses w w.
Proof. by intros H. Qed.

Lemma keeps_statuses_trans w1 w2 w3 :
  keeps_statuses w1 w2 → keeps_statuses w2 w3 → keeps_statuses w1 w3.
Proof. unfold keeps_statuses. auto. Qed.

Lemma keeps_statuses_same w w' :
  online_users (manager w') = online_users (manager w) → keeps_statuses w w'.
Proof. intros H Hw u s. unfold status. rewrite H. apply Hw. Qed.

Lemma keeps_statuses_send c msg : keeps keeps_statuses (send_message c msg).
Proof.
  intros w. rewrite send_message_run.
  destruct (connected w c); by apply keeps_statuses_same.
Qed.

Lemma keeps_statuses_sockets f : keeps keeps_statuses (modify (with_sockets f)).
Proof. intros w. by apply keeps_statuses_same. Qed.

Lemma keeps_statuses_registry f :
  keeps keeps_statuses (modify (with_active_connections f)).
Proof. intros w. by apply keeps_statuses_same. Qed.

Lemma keeps_statuses_status u s :
  s = "online" ∨ s = "busy" → keeps keeps_statuses (update_user_status u s).
Proof.
  intros Hs w Hw v s'. unfold status, update_user_status, modify. simpl.
  rewrite DictFacts.get_set. destruct (String.eqb v u).
  - by intros [= <-].
  - apply Hw.
Qed.

Lemma keeps_statuses_forget u :
  keeps keeps_statuses (modify (with_online_users (Dict.pop u))).
Proof.
  intros w Hw v s'. unfold status, modify. simpl.
  intros H%DictFacts.get_pop_Some. by apply (Hw v).
Qed.

Lemma keeps_statuses_update_users_list : keeps keeps_statuses update_users_list.
Proof.
  apply keeps_update_users_list;
    [apply keeps_statuses_refl|apply keeps_statuses_trans
    |apply keeps_statuses_send].
Qed.

Lemma keeps_statuses_login_user N c : keeps keeps_statuses (login_user N c).
Proof.
  unfold login_user, register_user_connection, setattr_name, setattr_otherName.
  repeat first
    [ apply keeps_statuses_send | apply keeps_statuses_sockets
    | apply keeps_statuses_registry | apply keeps_statuses_update_users_list
    | apply keeps_statuses_status; by left
    | apply keeps_gets; apply keeps_statuses_refl
    | apply keeps_bind; [apply keeps_statuses_trans| |intros ?]
    | match goal with
      | |- keeps keeps_statuses (match ?x with _ => _ end) => destruct x
      end ].
Qed.

Lemma keeps_statuses_dispatch data c : keeps keeps_statuses (dispatch data c).
Proof.
  intros w. apply keeps_dispatch;
    first [ apply keeps_statuses_refl | apply keeps_statuses_trans
          | apply keeps_statuses_send
          | intros; apply keeps_statuses_sockets
          | apply keeps_statuses_status
          | intros; apply keeps_statuses_registry
          | intros; apply keeps_statuses_forget
          | intros; apply keeps_statuses_login_user ].
Qed.

Lemma keeps_statuses_step a w : keeps_statuses w (step a w).
Proof.
  destruct a as [|c [data|]]; unfold step.
  - by apply keeps_statuses_same.
  - destruct (connected w c);
      [apply keeps_statuses_dispatch|apply keeps_statuses_refl].
  - destruct (connected w c); [|apply keeps_statuses_refl].
    unfold receive. rewrite on_disconnect_run. by apply keeps_statuses_same.
Qed.

Lemma statuses_steps actions w :
  statuses_known w → statuses_known (foldl (λ w a, step a w) w actions).
Proof.
  revert w. induction actions as [|a actions IH]; intros w Hw; [done|].
  simpl. apply IH. by apply (keeps_statuses_step a w).
Qed.

(** X11.  In every state the server can reach, a presence status is
    either ["online"] or ["busy"]; the default ['offline'] of
    [update_user_status] is never stored. *)
Theorem statuses_online_or_busy actions username s :
  status (run actions) username = Some s → s = "online" ∨ s = "busy".
Proof.
  apply (statuses_steps actions start). intros u s' H. done.
Qed.

Lemma statuses_online_or_busy_witness :
  status paired "bob" = Some "busy" ∧ ("busy" = "online" ∨ "busy" = "busy").
Proof.
  split; [reflexivity|].
  apply (statuses_online_or_busy
           [Open; Open; Receive 0 (login_as "alice");
            Receive 1 (login_as "bob"); Receive 0 (ready_for "bob")] "bob").
  reflexivity.
Defined.

(** ** Login and its snapshot *)

Lemma values_set_new {V} k (v : V) d : v ∈ Dict.values (Dict.set k v d).
Proof.
  apply (DictOrder.get_Some_values k). apply DictFacts.get_set_eq.
Qed.

(** X12.  After a login under a free name from an open connection, the
    caller itself gets the snapshot, and the list in it is the presence
    map with the new name ["online"]: every name that was there before
    keeps its status in it. *)
Theorem login_user_snapshot w N c :
  connected w c = true →
  lookup_connection w N = None →
  ∃ w' users,
    login_user N c w = (Returned tt, w') ∧
    users = Dict.items (online_users (manager w')) ∧
    (c, server_userlist users) ∈ drop (length (wire w)) (wire w') ∧
    (N, "online") ∈ users ∧
    (∀ v s, v ≠ N → status w v = Some s → status w' v = Some s).
Proof.
  intros Hopen Hl. apply DictFacts.mem_false in Hl.
  unfold login_user. rewrite bind_gets, Hl.
  unfold register_user_connection, update_user_status, setattr_name,
    setattr_otherName, bind, modify.
  rewrite send_message_run.
  destruct w as [[reg pres] socks sent]. raw.
  rewrite !connected_alter by done.
  destruct (socks !! c) as [ws|] eqn:Hws; [|done]. rewrite Hopen.
  rewrite update_users_list_run. eexists _, _. split; [done|]. raw.
  split; [done|]. split; [|split].
  - rewrite <- app_assoc, drop_app_length. right.
    apply list_elem_of_fmap. exists c. split; [done|].
    apply list_elem_of_filter. split; [|apply values_set_new].
    raw. rewrite !connected_alter by done. by rewrite Hws.
  - apply DictOrder.set_items.
  - intros v s Hv Hs. by rewrite DictFacts.get_set_ne.
Qed.

Lemma login_user_snapshot_witness :
  connected with_guest 2 = true ∧
  lookup_connection with_guest "carol" = None ∧
  ∃ w' users,
    login_user "carol" 2 with_guest = (Returned tt, w') ∧
    (2, server_userlist users) ∈ drop (length (wire with_guest)) (wire w') ∧
    ("carol", "online") ∈ users ∧
    status w' "bob" = Some "busy".
Proof.
  split; [reflexivity|]. split; [reflexivity|].
  destruct (login_user_snapshot with_guest "carol" 2 eq_refl eq_refl)
    as (w' & users & Hrun & _ & H1 & H2 & H3).
  exists w', users. split; [exact Hrun|]. split; [exact H1|].
  split; [exact H2|]. apply (H3 "bob" "busy"); [discriminate|reflexivity].
Defined.

(** ** Ready leaves third parties alone *)

(** X13.  [handle_ready] neither checks nor undoes an earlier pairing of
    the target: a third connection keeps its attributes, so one that had
    the target as its peer still has it, every status but the caller's
    and the target's is as before, and the registry is unchanged. *)
Theorem handle_ready_third_party w A B c t x :
  userName w c = Some A →
  lookup_connection w B = Some t →
  is_Some (userName w t) →
  x ≠ c → x ≠ t →
  peerName (handle_ready B c w).2 x = peerName w x ∧
  userName (handle_ready B c w).2 x = userName w x ∧
  (∀ v, v ≠ A → v ≠ B → status (handle_ready B c w).2 v = status w v) ∧
  (∀ v, lookup_connection (handle_ready B c w).2 v = lookup_connection w v).
Proof.
  intros HcA Hl [nB HtB] Hxc Hxt.
  destruct (handle_ready_core w B c t A nB Hl HcA HtB) as [Hm Hs].
  unfold peerName, userName, status, lookup_connection. rewrite Hm, Hs.
  simpl. rewrite !list_lookup_alter_ne by done.
  do 2 (split; [done|]). split; [|done].
  intros v HA HB. by rewrite !DictFacts.get_set_ne.
Qed.

(** ** Quit and offer from a connection without a name *)

(** X14.  A quit from a connection that never logged in raises
    [AttributeError] before anything is removed, the presence entry named
    in the message included; an offer from such a connection to a
    registered target without a peer raises as well, and nothing is sent
    to the target. *)
Theorem nameless_quit_and_offer w c :
  userName w c = None →
  (∀ u, handle_quit u c w = (Raised AttributeError, w)) ∧
  (∀ u offer t, lookup_connection w u = Some t →
     peerName w t = Some None →
     send_offer u offer c w = (Raised AttributeError, w)).
Proof.
  intros Hc. split.
  - intros u. unfold handle_quit, bind, getattr_name. by rewrite Hc.
  - intros u offer t Hl Hp. unfold send_offer. rewrite bind_gets.
    fold (lookup_connection w u). rewrite Hl. unfold bind.
    rewrite (getattr_otherName_run _ _ _ Hp).
    unfold getattr_name. by rewrite Hc.
Qed.

Lemma nameless_quit_and_offer_witness :
  userName (step Open two_users) 2 = None ∧
  handle_quit "bob" 2 (step Open two_users) =
    (Raised AttributeError, step Open two_users) ∧
  send_offer "bob" (JStr "sdp") 2 (step Open two_users) =
    (Raised AttributeError, step Open two_users).
Proof.
  split; [reflexivity|]. split.
  - apply (proj1 (nameless_quit_and_offer (step Open two_users) 2 eq_refl)).
  - apply (proj2 (nameless_quit_and_offer (step Open two_users) 2 eq_refl)
             "bob" (JStr "sdp") 1); reflexivity.
Defined.

Lemma handle_ready_third_party_witness :
  (userName crowd 2 = Some "carol" ∧
   lookup_connection crowd "bob" = Some 1 ∧
   peerName crowd 0 = Some (Some "bob")) ∧
  peerName (handle_ready "bob" 2 crowd).2 0 = peerName crowd 0.
Proof.
  split; [repeat split; reflexivity|].
  apply (handle_ready_third_party crowd "carol" "bob" 2 1 0);
    [reflexivity|reflexivity|eexists; reflexivity|discriminate|discriminate].
Defined.

(** ** Round trips *)

Module DictRestore.
Section DictRestore.
Context {V : Type}.
Implicit Types (d : list (string * V)) (k : string) (v : V).
Import Dict.

Lemma set_id k v d : get k d = Some v → set k v d = d.
Proof.
  induction d as [|[k' v'] d IH]; simpl; [done|].
  destruct (String.eqb k k') eqn:E.
  - by intros [= ->].
  - intros H. by rewrite IH.
Qed.

Lemma set_set k v v' d : set k v (set k v' d) = set k v d.
Proof.
  induction d as [|[k' v0] d IH]; simpl.
  - by rewrite String.eqb_refl.
  - destruct (String.eqb k k') eqn:E; simpl; rewrite E; [done|].
    by rewrite IH.
Qed.

Lemma set_back k v v' d : get k d = Some v → set k v (set k v' d) = d.
Proof. intros H. by rewrite set_set, set_id. Qed.

Lemma set_restore a b va vb va' vb' d :
  get a d = Some va → get b d = Some vb →
  set a va (set b vb (set a va' (set b vb' d))) = d.
Proof.
  induction d as [|[k v] d IH]; simpl; [done|].
  destruct (String.eqb a k) eqn:Ea, (String.eqb b k) eqn:Eb; simpl;
    rewrite ?Ea, ?Eb; simpl; rewrite ?Ea, ?Eb; simpl; rewrite ?Ea, ?Eb.
  - by intros [= ->] _.
  - intros [= ->] Hb. simpl. rewrite ?Ea. by rewrite set_back.
  - intros Ha [= ->]. simpl. rewrite ?Eb. f_equal.
    by rewrite set_back.
  - intros Ha Hb. by rewrite IH.
Qed.
End DictRestore.
End DictRestore.

Lemma outcome_pair {A} (m : Py A) w a : (m w).1 = Returned a → m w = (Returned a, (m w).2).
Proof. destruct (m w) as [o w']. simpl. by intros ->. Qed.

Lemma handle_ready_found_returns w B c t :
  lookup_connection w B = Some t →
  is_Some (userName w c) → has_attributes w t →
  (handle_ready B c w).1 = Returned tt.
Proof.
  intros Hl Hc Ht. unfold handle_ready. rewrite bind_gets.
  fold (lookup_connection w B). rewrite Hl.
  destruct (succeeds_ready_found c t B w (conj Hc Ht)) as [[] H]. exact H.
Qed.

Lemma leave_found_returns w B c t :
  lookup_connection w B = Some t →
  is_Some (userName w c) → has_attributes w t →
  (leave B c w).1 = Returned tt.
Proof.
  intros Hl Hc Ht. unfold leave. rewrite bind_gets.
  fold (lookup_connection w B). rewrite Hl.
  destruct (succeeds_leave_found c t B w (conj Hc Ht)) as [[] H]. exact H.
Qed.

Lemma set_otherName_id v ws : otherName ws = Some v → set_otherName v ws = ws.
Proof. destruct ws as [n o s]. simpl. by intros ->. Qed.

Lemma set_otherName_twice v v' ws :
  set_otherName v (set_otherName v' ws) = set_otherName v ws.
Proof. done. Qed.

(** X15.  [leave] undoes [ready]: from two sessions that are online and
    unpaired, a ready from one for the other followed by a leave from the
    same side brings the registry, the presence map (order included) and
    every socket back to exactly what they were; only the wire has
    grown. *)
Theorem ready_then_leave_restores w A B c t :
  session w A c → session w B t →
  status w A = Some "online" → status w B = Some "online" →
  peerName w c = Some None → peerName w t = Some None →
  ∃ w1 w2,
    handle_ready B c w = (Returned tt, w1) ∧
    leave B c w1 = (Returned tt, w2) ∧
    status w1 A = Some "busy" ∧
    manager w2 = manager w ∧
    sockets w2 = sockets w.
Proof.
  intros (_ & HcA & _) (Hl & HtB & _) HsA HsB HpC HpT.
  destruct (handle_ready_core w B c t A B Hl HcA HtB) as [Hm1 Hs1].
  assert (Hr1 : (handle_ready B c w).1 = Returned tt).
  { apply (handle_ready_found_returns w B c t); [done|by eexists|].
    split; by eexists. }
  apply outcome_pair in Hr1.
  set (w1 := (handle_ready B c w).2) in *.
  assert (Hl1 : lookup_connection w1 B = Some t).
  { unfold lookup_connection. by rewrite Hm1. }
  assert (HcA1 : userName w1 c = Some A).
  { unfold userName. rewrite Hs1. by rewrite !userName_alter. }
  assert (HtB1 : userName w1 t = Some B).
  { unfold userName. rewrite Hs1. by rewrite !userName_alter. }
  assert (HpT1 : is_Some (peerName w1 t)).
  { unfold peerName in *. rewrite Hs1, peerName_set, decide_True by done.
    destruct (decide (c = t)) as [->|E].
    - rewrite list_lookup_alter_eq. destruct (sockets w !! t); by eexists.
    - rewrite list_lookup_alter_ne by done.
      destruct (sockets w !! t); by eexists. }
  destruct (leave_core w1 B c t A Hl1 HcA1) as [Hm2 Hs2].
  assert (Hr2 : (leave B c w1).1 = Returned tt).
  { apply (leave_found_returns w1 B c t); [done|by eexists|].
    split; [by eexists|done]. }
  apply outcome_pair in Hr2.
  exists w1, (leave B c w1).2. split; [done|]. split; [done|]. split.
  { unfold status. rewrite Hm1. simpl. apply DictFacts.get_set_eq. }
  split.
  - rewrite Hm2, Hm1. simpl. unfold status in *.
    rewrite (DictRestore.set_restore A B "online" "online" "busy" "busy")
      by done.
    by destruct w as [[reg pres] socks sent].
  - rewrite Hs2, Hs1. apply list_eq. intros i.
    unfold peerName in *.
    rewrite !list_lookup_alter.
    destruct (sockets w !! c) as [wc|] eqn:Hwc; [|done].
    destruct (sockets w !! t) as [wt|] eqn:Hwt; [|done].
    simpl in HpC, HpT.
    repeat case_decide; subst; rewrite ?Hwc, ?Hwt; simpl; try done;
      rewrite ?set_otherName_twice; f_equal;
      first [ by apply set_otherName_id | congruence | idtac ].
Qed.

Lemma ready_then_leave_restores_witness :
  ∃ w1 w2,
    handle_ready "bob" 0 two_users = (Returned tt, w1) ∧
    leave "bob" 0 w1 = (Returned tt, w2) ∧
    status w1 "alice" = Some "busy" ∧
    manager w2 = manager two_users ∧
    sockets w2 = sockets two_users.
Proof.
  apply (ready_then_leave_restores two_users "alice" "bob" 0 1
           two_users_alice two_users_bob);
    reflexivity.
Defined.

(** X16.  Quit undoes login in the manager: a login under a name that is
    neither registered nor present, followed by a quit under that name
    from the same connection, leaves the registry and the presence map
    exactly as before, order included.  The connection keeps the [name]
    it was given, and no other socket is touched. *)
Theorem login_then_quit_restores w N c :
  connected w c = true →
  lookup_connection w N = None →
  status w N = None →
  ∃ w1 w2,
    login_user N c w = (Returned tt, w1) ∧
    handle_quit N c w1 = (Returned tt, w2) ∧
    lookup_connection w1 N = Some c ∧
    manager w2 = manager w ∧
    userName w2 c = Some N ∧
    (∀ c', c' ≠ c → sockets w2 !! c' = sockets w !! c').
Proof.
  intros Hopen Hl Hs.
  destruct (login_user_core w N c Hl) as [Hm1 Hs1].
  pose proof (outcome_pair _ _ _ (login_user_returns N c w)) as Hr1.
  set (w1 := (login_user N c w).2) in *.
  destruct (connected_exists _ _ Hopen) as [ws Hws].
  assert (Hn1 : userName w1 c = Some N).
  { unfold userName. rewrite Hs1, !list_lookup_alter_eq, Hws. done. }
  exists w1, (handle_quit N c w1).2.
  rewrite (handle_quit_run _ _ _ _ Hn1). simpl.
  split; [done|]. split; [done|]. split.
  { unfold lookup_connection. rewrite Hm1. apply DictFacts.get_set_eq. }
  split; [|split].
  - rewrite Hm1. simpl. unfold lookup_connection, status in *.
    rewrite !DictOrder.pop_set_absent by done.
    by destruct w as [[reg pres] socks sent].
  - done.
  - intros c' Hne. rewrite Hs1. by rewrite !list_lookup_alter_ne.
Qed.

Lemma login_then_quit_restores_witness :
  connected with_guest 2 = true ∧
  lookup_connection with_guest "carol" = None ∧
  status with_guest "carol" = None ∧
  ∃ w1 w2,
    login_user "carol" 2 with_guest = (Returned tt, w1) ∧
    handle_quit "carol" 2 w1 = (Returned tt, w2) ∧
    manager w2 = manager with_guest.
Proof.
  do 3 (split; [reflexivity|]).
  destruct (login_then_quit_restores with_guest "carol" 2
              eq_refl eq_refl eq_refl)
    as (w1 & w2 & H1 & H2 & _ & H3 & _).
  exists w1, w2. repeat split; assumption.
Defined.

(** ** A type that is not a string *)

(** X17.  An envelope whose [type] is missing, null, a number or anything
    else that is not a string selects no case and cannot be reported
    either: the default case raises [TypeError], which leaves the loop
    with nothing sent and nothing changed, and the rest of the inbox is
    not looked at. *)
Theorem dispatch_type_not_string data c w rest :
  (∀ a_type, e_type data ≠ Some (JStr a_type)) →
  dispatch data c w = (Raised TypeError, w) ∧
  serve c (Json data :: rest) w = (Raised TypeError, w).
Proof.
  intros H. unfold serve; fold serve. unfold bind, dispatch.
  destruct (e_type data) as [[| | |a_type| |]|]; try done.
  by destruct (H a_type).
Qed.

Lemma dispatch_type_not_string_witness :
  dispatch (mkEnvelope (Some (JNum 5)) (Some "alice") None None None) 0
    two_users = (Raised TypeError, two_users) ∧
  serve 0 [Json (mkEnvelope (Some (JNum 5)) (Some "alice") None None None);
           quit_as "alice"] two_users = (Raised TypeError, two_users).
Proof.
  apply (dispatch_type_not_string
           (mkEnvelope (Some (JNum 5)) (Some "alice") None None None)
           0 two_users [quit_as "alice"]).
  intros a_type. discriminate.
Defined.

(** ** One name per connection in orderly runs *)

(** X18.  After an orderly run a connection is registered under at most
    one name, and that name is the one it carries: two registry entries
    never share a connection. *)
Theorem orderly_one_name_per_connection actions u u' c :
  orderly_from start actions = true →
  lookup_connection (run actions) u = Some c →
  lookup_connection (run actions) u' = Some c →
  u = u' ∧ userName (run actions) c = Some u.
Proof.
  intros Ho H1 H2.
  assert (Hw : tidy (run actions)).
  { unfold run. apply tidy_run; [apply tidy_start|done]. }
  split; [by apply (tidy_same_user _ _ _ _ Hw H1 H2)|].
  by apply tidy_userName.
Qed.

Lemma orderly_one_name_per_connection_witness :
  orderly_from start
    [Open; Open; Receive 0 (login_as "alice"); Receive 1 (login_as "bob")] =
    true ∧
  userName
    (run [Open; Open; Receive 0 (login_as "alice");
          Receive 1 (login_as "bob")]) 1 = Some "bob".
Proof.
  split; [reflexivity|].
  apply (orderly_one_name_per_connection
           [Open; Open; Receive 0 (login_as "alice");
            Receive 1 (login_as "bob")] "bob" "bob" 1);
    reflexivity.
Defined.
